(** * LiveCodeRunner: a shallow embedding of the three widget implementations

    The repository holds three successive implementations of one React
    widget that runs a PHP script in an embedded runtime:

    - [V1]: the runtime is loaded on the main thread ([loadRuntime]) and a
      run is a [Promise.race] between the engine call and a timer;
    - [V2]: one fresh worker per run ([runWithWorker]), one promise per run;
    - [V3]: one shared worker and a map of pending executions
      ([pendingExecutions], [handleWorkerMessage]).

    A JavaScript string is modelled as the [string] of the bytes of its
    UTF-8 encoding: an ASCII character is one byte, any other character two
    to four bytes, none of them below 128.  Apart from the white space that
    [trim] removes, every character the code inspects is ASCII.  React state
    is a record, a handler is a function on that record, and an [await] cuts
    a handler in two: the part before it and its continuation, which takes
    the outcome of the awaited promise as an argument. *)

From Stdlib Require Import String Ascii List ZArith Lia Bool DecimalString.
From stdpp Require Import gmap strings.

Open Scope string_scope.

(** stdpp freezes [String.append] under [simpl]; the proofs below compute
    with it. *)
Arguments String.append !_ _ / : simpl nomatch.

(* ================================================================== *)
(** * Part I: definitions *)
(* ================================================================== *)

(** ** JavaScript string primitives used by the widget *)

Module Str.

(** [String.prototype.includes]. *)
Fixpoint includes (needle s : string) : bool :=
  String.prefix needle s ||
  match s with
  | EmptyString => false
  | String _ s' => includes needle s'
  end.

Definition lowerChar (c : ascii) : ascii :=
  let n := nat_of_ascii c in
  if (65 <=? n)%nat && (n <=? 90)%nat then ascii_of_nat (n + 32) else c.

(** [String.prototype.toLowerCase] on ASCII letters.  The widget only
    asks whether the result includes ["timeout"].  The letters outside
    ASCII whose lower case holds an ASCII letter are U+0130 (an [i] followed
    by a combining dot) and the Kelvin sign (a [k]); neither can complete
    that word, so the bytes of the letters outside ASCII are left as they
    are. *)
Fixpoint toLowerCase (s : string) : string :=
  match s with
  | EmptyString => EmptyString
  | String c s' => String (lowerChar c) (toLowerCase s')
  end.

(** White space as [String.prototype.trim] sees it: the white space and
    the line terminators of ECMAScript.  Six are ASCII (tab, LF, VT, FF, CR,
    space) and take one byte. *)
Definition isWhite (c : ascii) : bool :=
  let n := nat_of_ascii c in
  ((9 <=? n)%nat && (n <=? 13)%nat) || (n =? 32)%nat.

(** The no-break space U+00A0: the bytes 194, 160. *)
Definition isWhite2 (a b : ascii) : bool :=
  (nat_of_ascii a =? 194)%nat && (nat_of_ascii b =? 160)%nat.

(** The white space of three bytes: U+1680 (225 154 128), U+2000 to U+200A
    (226 128 128 to 226 128 138), the line and paragraph separators U+2028
    and U+2029 (226 128 168 and 169), U+202F (226 128 175), U+205F
    (226 129 159), U+3000 (227 128 128) and the byte order mark U+FEFF
    (239 187 191). *)
Definition isWhite3 (a b c : ascii) : bool :=
  let x := nat_of_ascii a in
  let y := nat_of_ascii b in
  let z := nat_of_ascii c in
  ((x =? 225)%nat && (y =? 154)%nat && (z =? 128)%nat)
  || ((x =? 226)%nat && (y =? 128)%nat
      && (((128 <=? z)%nat && (z <=? 138)%nat)
          || (z =? 168)%nat || (z =? 169)%nat || (z =? 175)%nat))
  || ((x =? 226)%nat && (y =? 129)%nat && (z =? 159)%nat)
  || ((x =? 227)%nat && (y =? 128)%nat && (z =? 128)%nat)
  || ((x =? 239)%nat && (y =? 187)%nat && (z =? 191)%nat).

Fixpoint trimStart (s : string) : string :=
  match s with
  | EmptyString => EmptyString
  | String a s1 =>
      if isWhite a then trimStart s1
      else match s1 with
           | EmptyString => s
           | String b s2 =>
               if isWhite2 a b then trimStart s2
               else match s2 with
                    | EmptyString => s
                    | String c s3 => if isWhite3 a b c then trimStart s3 else s
                    end
           end
  end.

(** [s] back to front, put before [acc]. *)
Fixpoint revOnto (s acc : string) : string :=
  match s with
  | EmptyString => acc
  | String c s' => revOnto s' (String c acc)
  end.

Definition reverse (s : string) : string := revOnto s EmptyString.

(** [trimStart] on a text read back to front: the bytes of a character
    come last byte first. *)
Fixpoint trimStartRev (s : string) : string :=
  match s with
  | EmptyString => EmptyString
  | String c s1 =>
      if isWhite c then trimStartRev s1
      else match s1 with
           | EmptyString => s
           | String b s2 =>
               if isWhite2 b c then trimStartRev s2
               else match s2 with
                    | EmptyString => s
                    | String a s3 => if isWhite3 a b c then trimStartRev s3 else s
                    end
           end
  end.

Definition trimEnd (s : string) : string := reverse (trimStartRev (reverse s)).

Definition trim (s : string) : string := trimEnd (trimStart s).

(** [s.replace(/c/g, by)] for a one-character pattern [c]; none of the
    replacement texts used by the widget contains a [$]. *)
Fixpoint replaceAll (c : ascii) (by_ : string) (s : string) : string :=
  match s with
  | EmptyString => EmptyString
  | String a s' =>
      if Ascii.eqb a c then by_ ++ replaceAll c by_ s'
      else String a (replaceAll c by_ s')
  end.

(** [s.replace(pat, by)] for a string pattern: first occurrence only. *)
Fixpoint replaceFirst (pat by_ s : string) : string :=
  if String.prefix pat s
  then by_ ++ substring (String.length pat) (String.length s - String.length pat) s
  else match s with
       | EmptyString => EmptyString
       | String a s' => String a (replaceFirst pat by_ s')
       end.

(** [Array.prototype.join]. *)
Fixpoint join (sep : string) (l : list string) : string :=
  match l with
  | [] => EmptyString
  | [x] => x
  | x :: rest => x ++ sep ++ join sep rest
  end.

(** Number to string, for the integer values a timeout takes. *)
Definition ofNumber (n : Z) : string := NilZero.string_of_int (Z.to_int n).

Definition isEmpty (s : string) : bool :=
  match s with EmptyString => true | _ => false end.

End Str.

(** ** Regular expressions, as far as the widget's one literal needs them *)

Module Regex.

Inductive regex : Type :=
| Never
| Empty
| Class (p : ascii -> bool)
| Seq (r1 r2 : regex)
| Alt (r1 r2 : regex)
| Star (r : regex).

Definition Lit (c : ascii) : regex := Class (Ascii.eqb c).
Definition Opt (r : regex) : regex := Alt r Empty.

(** The language of a regular expression. *)
Inductive matches : regex -> string -> Prop :=
| MEmpty : matches Empty EmptyString
| MClass p c : p c = true -> matches (Class p) (String c EmptyString)
| MSeq r1 r2 s1 s2 :
    matches r1 s1 -> matches r2 s2 -> matches (Seq r1 r2) (s1 ++ s2)
| MAltL r1 r2 s : matches r1 s -> matches (Alt r1 r2) s
| MAltR r1 r2 s : matches r2 s -> matches (Alt r1 r2) s
| MStarNil r : matches (Star r) EmptyString
| MStarApp r s1 s2 :
    matches r s1 -> matches (Star r) s2 -> matches (Star r) (s1 ++ s2).

Fixpoint nullable (r : regex) : bool :=
  match r with
  | Never => false
  | Empty => true
  | Class _ => false
  | Seq r1 r2 => nullable r1 && nullable r2
  | Alt r1 r2 => nullable r1 || nullable r2
  | Star _ => true
  end.

Fixpoint deriv (c : ascii) (r : regex) : regex :=
  match r with
  | Never => Never
  | Empty => Never
  | Class p => if p c then Empty else Never
  | Seq r1 r2 =>
      if nullable r1
      then Alt (Seq (deriv c r1) r2) (deriv c r2)
      else Seq (deriv c r1) r2
  | Alt r1 r2 => Alt (deriv c r1) (deriv c r2)
  | Star r1 => Seq (deriv c r1) (Star r1)
  end.

(** Does some prefix of [s] match [r]? *)
Fixpoint matchPrefix (r : regex) (s : string) : bool :=
  nullable r ||
  match s with
  | EmptyString => false
  | String c s' => matchPrefix (deriv c r) s'
  end.

(** [RegExp.prototype.test] for a pattern without anchors: a match may
    start at any index. *)
Fixpoint test (r : regex) (s : string) : bool :=
  matchPrefix r s ||
  match s with
  | EmptyString => false
  | String _ s' => test r s'
  end.

(** [[a-z]] under the [i] flag. *)
Definition isLetter (c : ascii) : bool :=
  let n := nat_of_ascii c in
  ((97 <=? n)%nat && (n <=? 122)%nat) || ((65 <=? n)%nat && (n <=? 90)%nat).

(** [[\s\S]]. *)
Definition anyChar (_ : ascii) : bool := true.

(** A literal character under the [i] flag. *)
Definition LitCI (c : ascii) : regex :=
  Class (fun a => Ascii.eqb (Str.lowerChar a) (Str.lowerChar c)).

Fixpoint wordCI (w : string) : regex :=
  match w with
  | EmptyString => Empty
  | String c w' => Seq (LitCI c) (wordCI w')
  end.

(** The literal [/timed out/i]. *)
Definition timedOutRegex : regex := wordCI "timed out".

(** The literal [/<\/?[a-z][\s\S]*>/i]. *)
Definition tagRegex : regex :=
  Seq (Lit "<") (Seq (Opt (Lit "/")) (Seq (Class isLetter)
    (Seq (Star (Class anyChar)) (Lit ">")))).

End Regex.

(** ** Output classification and escaping (shared by the three versions) *)

Module Output.

(** [/<\/?[a-z][\s\S]*>/i.test(result)], as V2 and V3 call it. *)
Definition looksLikeHtml (result : string) : bool :=
  Regex.test Regex.tagRegex result.

(** V1's [looksLikeHTML]: the guard [!text] rejects the empty string. *)
Definition looksLikeHTML (text : string) : bool :=
  if Str.isEmpty text then false else Regex.test Regex.tagRegex text.

(** V1's [escapeHtml]: three global replacements, [&] first. *)
Definition escapeHtml (s : string) : string :=
  Str.replaceAll ">" "&gt;"
    (Str.replaceAll "<" "&lt;"
      (Str.replaceAll "&" "&amp;" s)).

Inductive classification := Markup | PlainText.

Definition classify (text : string) : classification :=
  if looksLikeHtml text then Markup else PlainText.

(** The specification's words, for comparison: each character escaped on its
    own, in one pass. *)
Definition escapeChar (c : ascii) : string :=
  if Ascii.eqb c "&" then "&amp;"
  else if Ascii.eqb c "<" then "&lt;"
  else if Ascii.eqb c ">" then "&gt;"
  else String c EmptyString.

Fixpoint escapeEach (s : string) : string :=
  match s with
  | EmptyString => EmptyString
  | String c s' => escapeChar c ++ escapeEach s'
  end.

(** Reading the three entities back, once; [fuel] bounds the number of
    characters read. *)
Fixpoint stripPrefix (p s : string) : option string :=
  match p, s with
  | EmptyString, _ => Some s
  | String a p', String b s' => if Ascii.eqb a b then stripPrefix p' s' else None
  | String _ _, EmptyString => None
  end.

Fixpoint decodeFuel (fuel : nat) (s : string) : string :=
  match fuel, s with
  | O, _ => EmptyString
  | _, EmptyString => EmptyString
  | S fuel', String c s' =>
      match stripPrefix "&amp;" s, stripPrefix "&lt;" s, stripPrefix "&gt;" s with
      | Some r, _, _ => String "&" (decodeFuel fuel' r)
      | _, Some r, _ => String "<" (decodeFuel fuel' r)
      | _, _, Some r => String ">" (decodeFuel fuel' r)
      | _, _, _ => String c (decodeFuel fuel' s')
      end
  end.

Definition decodeEntities (s : string) : string :=
  decodeFuel (String.length s) s.

(** The characters [escapeHtml] replaces. *)
Definition isReserved (c : ascii) : bool :=
  Ascii.eqb c "&" || Ascii.eqb c "<" || Ascii.eqb c ">".

Fixpoint hasReserved (s : string) : bool :=
  match s with
  | EmptyString => false
  | String c s' => isReserved c || hasReserved s'
  end.

(** The tag-like substring as the specification words it: [<], a letter,
    anything, [>]. *)
Definition tagLike (s : string) : Prop :=
  exists pre c mid post,
    s = pre ++ "<" ++ String c (mid ++ ">" ++ post) /\ Regex.isLetter c = true.

(** The same with the optional [/] of a closing tag. *)
Definition tagLikeOC (s : string) : Prop :=
  exists pre slash c mid post,
    s = pre ++ "<" ++ slash ++ String c (mid ++ ">" ++ post)
    /\ (slash = "" \/ slash = "/") /\ Regex.isLetter c = true.

End Output.


(** ** JavaScript values carried by messages and engine results *)

Module Js.

(** Numbers are the integers the widget meets (identifiers, timeouts);
    [VObject] is an object without fields of interest. *)
Inductive value : Type :=
| VUndefined
| VNull
| VBool (b : bool)
| VNum (n : Z)
| VStr (s : string)
| VObject.

Definition truthy (v : value) : bool :=
  match v with
  | VUndefined | VNull => false
  | VBool b => b
  | VNum n => negb (n =? 0)%Z
  | VStr s => negb (Str.isEmpty s)
  | VObject => true
  end.

(** [String(v)]. *)
Definition toStr (v : value) : string :=
  match v with
  | VUndefined => "undefined"
  | VNull => "null"
  | VBool true => "true"
  | VBool false => "false"
  | VNum n => Str.ofNumber n
  | VStr s => s
  | VObject => "[object Object]"
  end.

(** [a || b]. *)
Definition or (a b : value) : value := if truthy a then a else b.

Definition isUndefined (v : value) : bool :=
  match v with VUndefined => true | _ => false end.

(** [v === "text"]. *)
Definition isString (text : string) (v : value) : bool :=
  match v with VStr s => String.eqb s text | _ => false end.

(** A message is an object; its fields are kept in insertion order. *)
Definition message : Type := list (string * value).

Fixpoint field (m : message) (k : string) : value :=
  match m with
  | [] => VUndefined
  | (k', v) :: rest => if String.eqb k' k then v else field rest k
  end.

Definition nl : string := String (ascii_of_nat 10) EmptyString.
Definition dquote : string := String (ascii_of_nat 34) EmptyString.

Definition hexDigit (n : nat) : string :=
  String (nth n ["0";"1";"2";"3";"4";"5";"6";"7";"8";"9";"a";"b";"c";"d";"e";"f"]%char "0"%char)
         EmptyString.

(** [JSON.stringify] on strings: quotes, backslashes and control
    characters are escaped. *)
Definition jsonChar (c : ascii) : string :=
  let n := nat_of_ascii c in
  if (n =? 34)%nat then "\" ++ dquote
  else if (n =? 92)%nat then "\\"
  else if (n =? 8)%nat then "\b"
  else if (n =? 9)%nat then "\t"
  else if (n =? 10)%nat then "\n"
  else if (n =? 12)%nat then "\f"
  else if (n =? 13)%nat then "\r"
  else if (n <? 32)%nat then "\u00" ++ hexDigit (n / 16) ++ hexDigit (n mod 16)
  else String c EmptyString.

Fixpoint jsonChars (s : string) : string :=
  match s with
  | EmptyString => EmptyString
  | String c s' => jsonChar c ++ jsonChars s'
  end.

Definition jsonString (s : string) : string := dquote ++ jsonChars s ++ dquote.

Definition jsonValue (v : value) : string :=
  match v with
  | VUndefined => "undefined"
  | VNull => "null"
  | VBool true => "true"
  | VBool false => "false"
  | VNum n => Str.ofNumber n
  | VStr s => jsonString s
  | VObject => "{}"
  end.

(** [JSON.stringify(msg)]: fields holding [undefined] are left out. *)
Definition stringify (m : message) : string :=
  "{" ++ Str.join ","
           (map (fun kv => jsonString (fst kv) ++ ":" ++ jsonValue (snd kv))
                (filter (fun kv => negb (isUndefined (snd kv))) m))
      ++ "}".

(** What an engine call returns: a plain value (a string, [null], ...)
    or an object with [stdout] and [stderr] fields. *)
Inductive result : Type :=
| RValue (v : value)
| RStruct (stdout stderr : value).

(** [String(result)]. *)
Definition resultToStr (r : result) : string :=
  match r with
  | RValue v => toStr v
  | RStruct _ _ => "[object Object]"
  end.

Definition resultTruthy (r : result) : bool :=
  match r with
  | RValue v => truthy v
  | RStruct _ _ => true
  end.

(** [result == null]. *)
Definition resultNullish (r : result) : bool :=
  match r with
  | RValue VNull | RValue VUndefined => true
  | _ => false
  end.

(** The specification's words, for comparison: standard output, then, when
    standard error is not empty, a newline and standard error. *)
Definition joinStreams (stdout stderr : string) : string :=
  stdout ++ (if Str.isEmpty stderr then "" else nl ++ stderr).

(** The same for streams that need not be strings, as the template literal
    of the first implementation reads them: a falsy standard output counts
    as empty, a falsy standard error as absent. *)
Definition joinValues (stdout stderr : value) : string :=
  toStr (or stdout (VStr "")) ++ (if truthy stderr then nl ++ toStr stderr else "").

(** An engine entry point: given the source, it returns or throws. *)
Inductive outcome : Type :=
| Returns (r : result)
| Throws (message : string).

End Js.

(** ** The status line of the second and third implementations *)

Module Status.

Inductive t : Type := idle | loading | running | stopped | timeout | error.

Definition toString (s : t) : string :=
  match s with
  | idle => "idle" | loading => "loading" | running => "running"
  | stopped => "stopped" | timeout => "timeout" | error => "error"
  end.

Definition eqb (a b : t) : bool := String.eqb (toString a) (toString b).

End Status.

(** ** First implementation: runtime on the main thread *)

Module V1.

(** The php-wasm instance: the entry points the widget probes for.
    [kill] and [terminate], when present, act on the runtime only. *)
Record engine : Type := {
  run : option (string -> Js.outcome);
  execute : option (string -> Js.outcome);
  exec : option (string -> Js.outcome);
  runString : option (string -> Js.outcome)
}.

(** One [Promise.race] of [runCode]: whether it has settled, whether
    the timer behind [timeoutPromise] is still to fire, and the delay. *)
Record race : Type := {
  raceSettled : bool;
  raceTimer : bool;
  raceTimeout : Z
}.

Record state : Type := {
  src : string;
  output : string;
  isLoadingRuntime : bool;
  isRunning : bool;
  php : option engine;
  error : option string;
  timedOut : bool;
  abortRef : bool;
  races : gmap nat race;
  nextRace : nat
}.

Definition setSrc v st :=
  {| src := v; output := output st; isLoadingRuntime := isLoadingRuntime st;
     isRunning := isRunning st; php := php st; error := error st; timedOut := timedOut st;
     abortRef := abortRef st; races := races st; nextRace := nextRace st |}.
Definition setOutput v st :=
  {| src := src st; output := v; isLoadingRuntime := isLoadingRuntime st;
     isRunning := isRunning st; php := php st; error := error st; timedOut := timedOut st;
     abortRef := abortRef st; races := races st; nextRace := nextRace st |}.
Definition setIsLoadingRuntime v st :=
  {| src := src st; output := output st; isLoadingRuntime := v; isRunning := isRunning st;
     php := php st; error := error st; timedOut := timedOut st; abortRef := abortRef st;
     races := races st; nextRace := nextRace st |}.
Definition setIsRunning v st :=
  {| src := src st; output := output st; isLoadingRuntime := isLoadingRuntime st;
     isRunning := v; php := php st; error := error st; timedOut := timedOut st;
     abortRef := abortRef st; races := races st; nextRace := nextRace st |}.
Definition setPhp v st :=
  {| src := src st; output := output st; isLoadingRuntime := isLoadingRuntime st;
     isRunning := isRunning st; php := v; error := error st; timedOut := timedOut st;
     abortRef := abortRef st; races := races st; nextRace := nextRace st |}.
Definition setError v st :=
  {| src := src st; output := output st; isLoadingRuntime := isLoadingRuntime st;
     isRunning := isRunning st; php := php st; error := v; timedOut := timedOut st;
     abortRef := abortRef st; races := races st; nextRace := nextRace st |}.
Definition setTimedOut v st :=
  {| src := src st; output := output st; isLoadingRuntime := isLoadingRuntime st;
     isRunning := isRunning st; php := php st; error := error st; timedOut := v;
     abortRef := abortRef st; races := races st; nextRace := nextRace st |}.
Definition setAbortRef v st :=
  {| src := src st; output := output st; isLoadingRuntime := isLoadingRuntime st;
     isRunning := isRunning st; php := php st; error := error st; timedOut := timedOut st;
     abortRef := v; races := races st; nextRace := nextRace st |}.
Definition setRaces v st :=
  {| src := src st; output := output st; isLoadingRuntime := isLoadingRuntime st;
     isRunning := isRunning st; php := php st; error := error st; timedOut := timedOut st;
     abortRef := abortRef st; races := v; nextRace := nextRace st |}.
Definition setNextRace v st :=
  {| src := src st; output := output st; isLoadingRuntime := isLoadingRuntime st;
     isRunning := isRunning st; php := php st; error := error st; timedOut := timedOut st;
     abortRef := abortRef st; races := races st; nextRace := v |}.

(** [code || ""]: the [code] prop may be missing. *)
Definition codeOrEmpty (code : option string) : string :=
  match code with Some c => c | None => EmptyString end.

Definition initial (code : option string) : state :=
  {| src := codeOrEmpty code; output := ""; isLoadingRuntime := false;
     isRunning := false; php := None; error := None; timedOut := false;
     abortRef := false; races := ∅; nextRace := 0 |}.

(** *** [loadRuntime]

    A handler reads [php] and [isLoadingRuntime] from the render that
    created it ([snap]) and writes through the setters to the live state
    ([st]).  The outcome of [import("php-wasm")] and of the factory call
    is an input. *)
Inductive load_outcome : Type :=
| ImportFails
| NotAFunction
| CreateFails
| Created (phpInstance : engine).

Definition loadFailure : string :=
  "Failed to load php-wasm runtime. Make sure `php-wasm` is installed (npm i php-wasm).".

(** Up to the first [await]; [None] when the guard returns at once. *)
Definition loadRuntime_begin (snap st : state) : option state :=
  match php snap with
  | Some _ => None
  | None =>
      if isLoadingRuntime snap then None
      else Some (setError None (setIsLoadingRuntime true st))
  end.

(** After the awaits: [try], [catch], [finally]. *)
Definition loadRuntime_end (o : load_outcome) (st : state) : state :=
  setIsLoadingRuntime false
    match o with
    | Created phpInstance => setPhp (Some phpInstance) st
    | ImportFails | NotAFunction | CreateFails => setError (Some loadFailure) st
    end.

Definition loadRuntime (snap : state) (o : load_outcome) (st : state) : state :=
  match loadRuntime_begin snap st with
  | None => st
  | Some st1 => loadRuntime_end o st1
  end.

(** *** [runCode] *)

(** Lines 102 to 113: the result of the runner as a string. *)
Definition normalize (r : Js.result) : string :=
  match r with
  | Js.RValue Js.VNull | Js.RValue Js.VUndefined => ""
  | Js.RValue (Js.VStr s) => s
  | Js.RStruct stdout stderr =>
      if Js.truthy stdout || Js.truthy stderr
      then Str.trim (Js.toStr (Js.or stdout (Js.VStr ""))
                     ++ (if Js.truthy stderr then Js.nl ++ Js.toStr stderr else ""))
      else Js.resultToStr r
  | Js.RValue v => Js.toStr v
  end.

Definition noRunner : string := "php-wasm runtime does not expose a run() function.".

(** [php.run || php.execute || php.exec]. *)
Definition runner (e : engine) : option (string -> Js.outcome) :=
  match run e with
  | Some f => Some f
  | None => match execute e with
            | Some f => Some f
            | None => exec e
            end
  end.

(** [runPromise]: what the engine call settles with. *)
Definition runPromise (e : engine) (codeToRun : string) : Js.outcome :=
  match runner e with
  | None =>
      match runString e with
      | Some f => f codeToRun
      | None => Js.Throws noRunner
      end
  | Some f =>
      match f codeToRun with
      | Js.Returns result => Js.Returns (Js.RValue (Js.VStr (normalize result)))
      | Js.Throws m => Js.Throws m
      end
  end.

(** The rejection of [timeoutPromise]. *)
Definition timeoutMessage (timeoutMs : Z) : string :=
  "Execution timed out after " ++ Str.ofNumber timeoutMs ++ " ms".

(** [opts.timeoutMs || 6000]. *)
Definition effectiveTimeout (timeoutMs : Z) : Z :=
  if (timeoutMs =? 0)%Z then 6000%Z else timeoutMs.

(** Up to [await loadRuntime()]. *)
Definition runCode_begin (st : state) : state :=
  setIsRunning true (setOutput "" (setAbortRef false (setTimedOut false (setError None st)))).

(** Where [runCode] stands once the runtime question is settled: it has
    returned, or it has started the engine and the timer. *)
Inductive after_load : Type :=
| Returned (st : state)
| Racing (st : state) (e : engine) (codeToRun : string).

(** The re-check [if (!php)] reads the [php] of the invoking render. *)
Definition runCode_afterLoad (snap st : state) : after_load :=
  match php snap with
  | None => Returned (setIsRunning false st)
  | Some e => Racing st e (src snap)
  end.

(** [runCode] from the click to the race, with no other event in
    between. *)
Definition runCode_toRace (snap : state) (o : load_outcome) (st : state) : after_load :=
  let st1 := runCode_begin st in
  let st2 := match php snap with
             | None => loadRuntime snap o st1
             | Some _ => st1
             end in
  runCode_afterLoad snap st2.

(** [String(err.message || err)] for an [Error] with message [m]. *)
Definition errorText (m : string) : string :=
  if Str.isEmpty m then "Error" else m.

(** Lines 128 to 148: the continuation of [Promise.race]. *)
Definition runCode_settle (o : Js.outcome) (st : state) : state :=
  setIsRunning false
    match o with
    | Js.Returns res =>
        if abortRef st then setOutput "[Execution stopped by user]" st
        else setOutput (if Js.resultNullish res then "" else Js.resultToStr res) st
    | Js.Throws m =>
        if Regex.test Regex.timedOutRegex m
        then setOutput "[Execution timed out]" (setTimedOut true st)
        else if abortRef st then setOutput "[Execution stopped by user]" st
        else setOutput "[Execution error — see console]" (setError (Some (errorText m)) st)
    end.

(** The race starts: the engine call is under way and the timer is
    set; nothing in the widget ever clears that timer. *)
Definition startRace (timeoutMs : Z) (st : state) : state :=
  setNextRace (S (nextRace st))
    (setRaces (<[nextRace st := {| raceSettled := false; raceTimer := true;
                                   raceTimeout := effectiveTimeout timeoutMs |}]> (races st)) st).

Definition settleRace (n : nat) (st : state) : state :=
  setRaces (alter (fun r => {| raceSettled := true; raceTimer := raceTimer r;
                               raceTimeout := raceTimeout r |}) n (races st)) st.

(** [runPromise] of race [n] settles with [o]. *)
Definition engineSettled (n : nat) (o : Js.outcome) (st : state) : state :=
  match races st !! n with
  | Some r => if raceSettled r then st else runCode_settle o (settleRace n st)
  | None => st
  end.

(** The timer of race [n] fires and rejects [timeoutPromise]. *)
Definition timerFired (n : nat) (st : state) : state :=
  match races st !! n with
  | Some r =>
      if raceTimer r then
        let st := setRaces (alter (fun r => {| raceSettled := raceSettled r;
                                               raceTimer := false;
                                               raceTimeout := raceTimeout r |}) n (races st)) st in
        if raceSettled r then st
        else runCode_settle (Js.Throws (timeoutMessage (raceTimeout r))) (settleRace n st)
      else st
  | None => st
  end.

(** A click on Run when the loader settles with [o] before anything
    else happens. *)
Definition runCode (timeoutMs : Z) (o : load_outcome) (st : state) : state :=
  match runCode_toRace st o st with
  | Returned st' => st'
  | Racing st' _ _ => startRace timeoutMs st'
  end.

Definition stopExecution (st : state) : state :=
  setOutput "[Stopping execution — result may still arrive if runtime cannot be aborted]"
    (setIsRunning false (setAbortRef true st)).

(** The Reset button. *)
Definition reset (code : option string) (st : state) : state :=
  setError None (setOutput "" (setSrc (codeOrEmpty code) st)).

(** The Clear button. *)
Definition clear (st : state) : state :=
  setTimedOut false (setError None (setOutput "" st)).

(** *** [renderOutput]

    [RenderPre text] is a [pre] element whose child is the string [text];
    React puts a string child on the page as text, character for
    character, and does not read it as markup.  [RenderIframe srcDoc] is
    the sandboxed [iframe] whose document is [srcDoc]. *)
Inductive rendered : Type :=
| RenderNothing
| RenderError (e : string)
| RenderIframe (srcDoc : string)
| RenderPre (text : string).

Definition errorShown (st : state) : option string :=
  match error st with
  | Some e => if Str.isEmpty e then None else Some e
  | None => None
  end.

Definition renderOutput (st : state) : rendered :=
  match errorShown st with
  | Some e => RenderError e
  | None =>
      if Str.isEmpty (output st) then RenderNothing
      else if Output.looksLikeHTML (output st) then RenderIframe (output st)
      else RenderPre (Output.escapeHtml (output st))
  end.

(** What the surroundings of the output show: the label of the Run
    button and the time-out notice. *)
Definition runLabel (st : state) : string :=
  if isLoadingRuntime st then "Loading runtime..."
  else if isRunning st then "Running..."
  else "Run PHP".

(** *** Events

    The Run button calls [runCode({ timeoutMs: 8000 })]; [o] is what the
    loader settles with when that call awaits it. *)
Inductive event : Type :=
| RunClicked (o : load_outcome)
| StopClicked
| ResetClicked
| ClearClicked
| SrcEdited (text : string)
| EngineSettled (n : nat) (o : Js.outcome)
| TimerFired (n : nat).

Definition step (code : option string) (st : state) (ev : event) : state :=
  match ev with
  | RunClicked o => runCode 8000 o st
  | StopClicked => stopExecution st
  | ResetClicked => reset code st
  | ClearClicked => clear st
  | SrcEdited text => setSrc text st
  | EngineSettled n o => engineSettled n o st
  | TimerFired n => timerFired n st
  end.

Definition steps (code : option string) (st : state) (evs : list event) : state :=
  fold_left (step code) evs st.

Definition isRun (ev : event) : bool :=
  match ev with RunClicked _ => true | _ => false end.

End V1.

(** ** Second implementation: one worker per run *)

Module V2.

(** *** The worker script *)

(** The runtime inside the worker: [php.run(code)]. *)
Record engine : Type := { run : string -> Js.outcome }.

(** What [import(url)] followed by [createPHP()] comes to. *)
Inductive import_result : Type :=
| ImportFails (message : string)
| NoCreatePHP
| CreateFails (message : string)
| Created (php : engine).

Definition TRIES (absoluteWorkerUrl : string) : list string :=
  [absoluteWorkerUrl; Str.replaceFirst ".mjs" ".js" absoluteWorkerUrl].

Definition dbg (text : string) : Js.message :=
  [("type", Js.VStr "debug"); ("msg", Js.VStr ("[php-worker-debug] " ++ text))].

(** The [for] loop of [createRuntime]: the runtime if one source gives
    it, and the debug messages posted on the way. *)
Fixpoint tryAll (imp : string -> import_result) (urls : list string)
  : option engine * list Js.message :=
  match urls with
  | [] => (None, [])
  | url :: rest =>
      let attempt := dbg ("Attempting to import runtime from: " ++ url) in
      match imp url with
      | Created php =>
          (Some php, [attempt;
                      dbg "createPHP function found. Initializing runtime...";
                      dbg "PHP runtime initialized successfully."])
      | NoCreatePHP =>
          let '(r, log) := tryAll imp rest in (r, attempt :: log)
      | ImportFails m =>
          let '(r, log) := tryAll imp rest in
          (r, attempt :: dbg ("Failed to import " ++ url ++ ": " ++ m) :: log)
      | CreateFails m =>
          let '(r, log) := tryAll imp rest in
          (r, attempt :: dbg "createPHP function found. Initializing runtime..."
                      :: dbg ("Failed to import " ++ url ++ ": " ++ m) :: log)
      end
  end.

Definition loadError (absoluteWorkerUrl : string) : string :=
  "Could not load php-wasm runtime from " ++ Str.join " or " (TRIES absoluteWorkerUrl).

(** [createRuntime]: the new value of [phpRuntime], the runtime or the
    error thrown, and the messages posted. *)
Definition createRuntime (imp : string -> import_result) (phpRuntime : option engine)
    (absoluteWorkerUrl : string)
  : option engine * (engine + string) * list Js.message :=
  match phpRuntime with
  | Some php => (Some php, inl php, [dbg "Runtime already initialized."])
  | None =>
      match tryAll imp (TRIES absoluteWorkerUrl) with
      | (Some php, log) => (Some php, inl php, log)
      | (None, log) => (None, inr (loadError absoluteWorkerUrl), log)
      end
  end.

Definition nullDeref : string := "Cannot read properties of null (reading 'stdout')".
Definition undefinedDeref : string :=
  "Cannot read properties of undefined (reading 'stdout')".

(** The normalisation inside the worker; reading a field of [null] or
    [undefined] throws a [TypeError] (the message is the one of V8). *)
Definition normalize (result : Js.result) : string + string :=
  match result with
  | Js.RValue Js.VNull => inr nullDeref
  | Js.RValue Js.VUndefined => inr undefinedDeref
  | Js.RValue v => inl (Js.toStr v)
  | Js.RStruct stdout stderr =>
      if Js.truthy stdout || Js.truthy stderr
      then inl (Js.toStr (Js.or stdout (Js.VStr ""))
                ++ (if Js.truthy stderr then Js.nl ++ Js.toStr stderr else ""))
      else inl (Js.resultToStr result)
  end.

Definition errorMessage (id : Js.value) (m : string) : Js.message :=
  [("type", Js.VStr "error"); ("id", id); ("error", Js.VStr m)].

(** The [catch] branch of the worker's handler. *)
Definition errorReply (id : Js.value) (m : string) : list Js.message :=
  [dbg ("An error occurred: " ++ m); errorMessage id m].

(** No source gives a runtime. *)
Definition neverLoads (imp : string -> import_result) : Prop :=
  forall url, match imp url with Created _ => False | _ => True end.

(** [self.onmessage] of the worker. *)
Definition worker_onmessage (imp : string -> import_result) (absoluteWorkerUrl : string)
    (phpRuntime : option engine) (msg : Js.message)
  : option engine * list Js.message :=
  if Js.isString "run" (Js.field msg "type") then
    let id := Js.field msg "id" in
    match createRuntime imp phpRuntime absoluteWorkerUrl with
    | (rt, inr m, log) => (rt, app log (errorReply id m))
    | (rt, inl php, log) =>
        let log := app log [dbg "Executing PHP code..."] in
        match run php (Js.toStr (Js.field msg "code")) with
        | Js.Throws m => (rt, app log (errorReply id m))
        | Js.Returns result =>
            let log := app log [dbg "Execution finished."] in
            match normalize result with
            | inr m => (rt, app log (errorReply id m))
            | inl normalized =>
                (rt, app log [[("type", Js.VStr "result"); ("id", id);
                               ("result", Js.VStr normalized)]])
            end
        end
    end
  else (phpRuntime, []).

(** *** The widget *)

(** The closure of one [runWithWorker] call: its [finished] flag, whether
    its promise has settled, its worker and its timer. *)
Record run_state : Type := {
  finished : bool;
  settled : bool;
  terminated : bool;
  timerArmed : bool;
  clientTimeout : Z
}.

Record state : Type := {
  src : string;
  output : string;
  isHtmlOutput : bool;
  status : Status.t;
  lastError : Js.value;
  runIdRef : Z;
  workerRef : option Z;
  runs : gmap Z run_state;
  workerBlobUrlRef : bool;
  posted : list (Z * Js.message)
}.

Definition setSrc v st :=
  {| src := v; output := output st; isHtmlOutput := isHtmlOutput st; status := status st;
     lastError := lastError st; runIdRef := runIdRef st; workerRef := workerRef st;
     runs := runs st; workerBlobUrlRef := workerBlobUrlRef st; posted := posted st |}.
Definition setOutput v st :=
  {| src := src st; output := v; isHtmlOutput := isHtmlOutput st; status := status st;
     lastError := lastError st; runIdRef := runIdRef st; workerRef := workerRef st;
     runs := runs st; workerBlobUrlRef := workerBlobUrlRef st; posted := posted st |}.
Definition setIsHtmlOutput v st :=
  {| src := src st; output := output st; isHtmlOutput := v; status := status st;
     lastError := lastError st; runIdRef := runIdRef st; workerRef := workerRef st;
     runs := runs st; workerBlobUrlRef := workerBlobUrlRef st; posted := posted st |}.
Definition setStatus v st :=
  {| src := src st; output := output st; isHtmlOutput := isHtmlOutput st; status := v;
     lastError := lastError st; runIdRef := runIdRef st; workerRef := workerRef st;
     runs := runs st; workerBlobUrlRef := workerBlobUrlRef st; posted := posted st |}.
Definition setLastError v st :=
  {| src := src st; output := output st; isHtmlOutput := isHtmlOutput st;
     status := status st; lastError := v; runIdRef := runIdRef st;
     workerRef := workerRef st; runs := runs st; workerBlobUrlRef := workerBlobUrlRef st;
     posted := posted st |}.
Definition setRunIdRef v st :=
  {| src := src st; output := output st; isHtmlOutput := isHtmlOutput st;
     status := status st; lastError := lastError st; runIdRef := v;
     workerRef := workerRef st; runs := runs st; workerBlobUrlRef := workerBlobUrlRef st;
     posted := posted st |}.
Definition setWorkerRef v st :=
  {| src := src st; output := output st; isHtmlOutput := isHtmlOutput st;
     status := status st; lastError := lastError st; runIdRef := runIdRef st;
     workerRef := v; runs := runs st; workerBlobUrlRef := workerBlobUrlRef st;
     posted := posted st |}.
Definition setRuns v st :=
  {| src := src st; output := output st; isHtmlOutput := isHtmlOutput st;
     status := status st; lastError := lastError st; runIdRef := runIdRef st;
     workerRef := workerRef st; runs := v; workerBlobUrlRef := workerBlobUrlRef st;
     posted := posted st |}.
Definition setPosted v st :=
  {| src := src st; output := output st; isHtmlOutput := isHtmlOutput st;
     status := status st; lastError := lastError st; runIdRef := runIdRef st;
     workerRef := workerRef st; runs := runs st; workerBlobUrlRef := workerBlobUrlRef st;
     posted := v |}.

(** The widget once mounted: the effect has built the worker script. *)
Definition initial (code : string) : state :=
  {| src := code; output := ""; isHtmlOutput := false; status := Status.idle;
     lastError := Js.VNull; runIdRef := 0; workerRef := None; runs := ∅;
     workerBlobUrlRef := true; posted := [] |}.

(** What is on screen. *)
Definition visible (st : state) : string * Js.value * Status.t :=
  (output st, lastError st, status st).

Definition updRun (id : Z) (f : run_state -> run_state) (st : state) : state :=
  setRuns (alter f id (runs st)) st.

Definition markFinished (r : run_state) : run_state :=
  {| finished := true; settled := settled r; terminated := terminated r;
     timerArmed := timerArmed r; clientTimeout := clientTimeout r |}.
Definition markSettled (r : run_state) : run_state :=
  {| finished := finished r; settled := true; terminated := terminated r;
     timerArmed := timerArmed r; clientTimeout := clientTimeout r |}.
Definition markTerminated (r : run_state) : run_state :=
  {| finished := finished r; settled := settled r; terminated := true;
     timerArmed := timerArmed r; clientTimeout := clientTimeout r |}.
Definition disarm (r : run_state) : run_state :=
  {| finished := finished r; settled := settled r; terminated := terminated r;
     timerArmed := false; clientTimeout := clientTimeout r |}.

(** [worker.terminate()] and [if (workerRef.current === worker)
    workerRef.current = null]. *)
Definition cleanup (id : Z) (st : state) : state :=
  let st := updRun id markTerminated st in
  match workerRef st with
  | Some w => if (w =? id)%Z then setWorkerRef None st else st
  | None => st
  end.

(** [String(err)] for an [Error] with message [m]. *)
Definition errorToStr (m : string) : string :=
  if Str.isEmpty m then "Error" else "Error: " ++ m.

(** The [try] branch of [runCode] after [await runWithWorker]. *)
Definition runCode_then (res_result : string) (st : state) : state :=
  let result := res_result in
  let looksLikeHtml := Output.looksLikeHtml result in
  setStatus Status.idle (setOutput result (setIsHtmlOutput looksLikeHtml st)).

(** The [catch] branch of [runCode] for an [Error] with message [m]. *)
Definition runCode_catch (m : string) (st : state) : state :=
  let st := setStatus
              (if negb (Str.isEmpty m) && Str.includes "timeout" (Str.toLowerCase m)
               then Status.timeout else Status.error) st in
  let st := setLastError (Js.VStr (if Str.isEmpty m then errorToStr m else m)) st in
  setOutput ("[Error] " ++ (if Str.isEmpty m then errorToStr m else m)) st.

Definition isSettled (id : Z) (st : state) : bool :=
  match runs st !! id with
  | Some r => settled r
  | None => true
  end.

(** [resolve] and [reject] of the promise of run [id]: the first call
    settles it and resumes [runCode]; later calls do nothing. *)
Definition resolve (id : Z) (res_result : string) (st : state) : state :=
  if isSettled id st then st
  else runCode_then res_result (updRun id markSettled st).

Definition reject (id : Z) (m : string) (st : state) : state :=
  if isSettled id st then st
  else runCode_catch m (updRun id markSettled st).

Definition isDebug (msg : Js.message) : bool := Js.isString "debug" (Js.field msg "type").

(** [msg.id !== id] for the number [id]. *)
Definition differs (v : Js.value) (id : Z) : bool :=
  match v with
  | Js.VNum n => negb (n =? id)%Z
  | _ => true
  end.

(** [worker.onmessage] of run [id]. *)
Definition onmessage (id : Z) (msg : Js.message) (st : state) : state :=
  if Js.truthy (Js.field msg "id") && differs (Js.field msg "id") id && negb (isDebug msg)
  then st
  else if isDebug msg then st
  else if Js.isString "result" (Js.field msg "type") then
    resolve id (Js.toStr (Js.or (Js.field msg "result") (Js.VStr "")))
      (cleanup id (updRun id markFinished st))
  else if Js.isString "error" (Js.field msg "type") then
    reject id (Js.toStr (Js.or (Js.field msg "error") (Js.VStr "Unknown error from worker")))
      (cleanup id (updRun id markFinished st))
  else if Js.isString "stopped" (Js.field msg "type") then
    reject id "Execution stopped" (cleanup id (updRun id markFinished st))
  else st.

(** [worker.onerror] of run [id]. *)
Definition onerror (id : Z) (message : string) (st : state) : state :=
  reject id (if Str.isEmpty message then "Worker runtime error" else message)
    (cleanup id (updRun id markFinished st)).

Definition timeoutMessage (clientTimeout : Z) : string :=
  "Client-side timeout after " ++ Str.ofNumber clientTimeout ++ " ms".

(** The callback of the timer of run [id]; a timer fires once. *)
Definition timerFired (id : Z) (st : state) : state :=
  match runs st !! id with
  | None => st
  | Some r =>
      if timerArmed r then
        let st := updRun id disarm st in
        if finished r then st
        else reject id (timeoutMessage (clientTimeout r))
               (cleanup id (updRun id markFinished st))
      else st
  end.

(** [runWithWorker] inside [runCode], up to the [await]: a fresh worker,
    the next identifier, the timer, the request. *)
Definition runWithWorker (codeToRun : string) (timeoutMs : Z) (st : state) : state :=
  let id := (runIdRef st + 1)%Z in
  let st := setRunIdRef id (setWorkerRef (Some id) st) in
  let st := setRuns (<[id := {| finished := false; settled := false; terminated := false;
                                timerArmed := true; clientTimeout := timeoutMs |}]> (runs st)) st in
  setPosted (app (posted st)
                 [(id, [("type", Js.VStr "run"); ("id", Js.VNum id);
                        ("code", Js.VStr codeToRun);
                        ("timeoutMs", Js.VNum timeoutMs)])]) st.

(** [runCode], from the click to the [await]. *)
Definition runCode (timeoutMs : Z) (st : state) : state :=
  let st := setStatus Status.loading (setOutput "" (setIsHtmlOutput false (setLastError Js.VNull st))) in
  let st := setStatus Status.running st in
  if workerBlobUrlRef st then runWithWorker (src st) timeoutMs st
  else runCode_catch "Worker blob not initialized" st.

Definition stopExecution (st : state) : state :=
  match workerRef st with
  | Some w =>
      setOutput "[Execution stopped]"
        (setStatus Status.stopped (setWorkerRef None (updRun w markTerminated st)))
  | None => st
  end.

Definition resetCode (code : string) (st : state) : state :=
  setLastError Js.VNull (setStatus Status.idle (setOutput "" (setSrc code st))).

Definition clearOutput (st : state) : state :=
  setLastError Js.VNull (setOutput "" st).

(** *** Events *)
Inductive event : Type :=
| RunClicked
| StopClicked
| ResetClicked
| ClearClicked
| SrcEdited (text : string)
| TimerFired (id : Z)
| WorkerMessage (id : Z) (msg : Js.message)
| WorkerError (id : Z) (message : string).

Definition step (code : string) (timeoutMs : Z) (st : state) (ev : event) : state :=
  match ev with
  | RunClicked => runCode timeoutMs st
  | StopClicked => stopExecution st
  | ResetClicked => resetCode code st
  | ClearClicked => clearOutput st
  | SrcEdited text => setSrc text st
  | TimerFired id => timerFired id st
  | WorkerMessage id msg => onmessage id msg st
  | WorkerError id message => onerror id message st
  end.

Definition steps (code : string) (timeoutMs : Z) (st : state) (evs : list event) : state :=
  fold_left (step code timeoutMs) evs st.

(** What the page and the browser allow: Run is disabled while the status
    is [running] or [loading], Stop while no worker is current; a timer
    fires only while armed; a terminated worker delivers nothing. *)
Definition enabled (st : state) (ev : event) : bool :=
  match ev with
  | RunClicked =>
      negb (Status.eqb (status st) Status.running || Status.eqb (status st) Status.loading)
  | StopClicked => match workerRef st with Some _ => true | None => false end
  | ResetClicked | ClearClicked | SrcEdited _ => true
  | TimerFired id =>
      match runs st !! id with Some r => timerArmed r | None => false end
  | WorkerMessage id _ | WorkerError id _ =>
      match runs st !! id with Some r => negb (terminated r) | None => false end
  end.

(** A sequence of events the page allows, one after the other. *)
Fixpoint feasible (code : string) (timeoutMs : Z) (st : state) (evs : list event) : bool :=
  match evs with
  | [] => true
  | ev :: rest =>
      enabled st ev && feasible code timeoutMs (step code timeoutMs st ev) rest
  end.

Definition reachable (code : string) (timeoutMs : Z) (st : state) : Prop :=
  exists evs, st = steps code timeoutMs (initial code) evs.

(** Run [id] is on record with a settled promise. *)
Definition settledIn (m : gmap Z run_state) (id : Z) : Prop :=
  exists r, m !! id = Some r /\ settled r = true.

(** An update of a run's record that never unsettles its promise. *)
Definition keeps (f : run_state -> run_state) : Prop :=
  forall r, settled r = true -> settled (f r) = true.

(** The promise of run [id] has settled. *)
Definition over (st : state) (id : Z) : Prop :=
  settledIn (runs st) id /\ (id <= runIdRef st)%Z.

(** Every run on record has been issued, and a settled promise belongs
    to a finished run. *)
Definition wf (st : state) : Prop :=
  forall id r, runs st !! id = Some r ->
    (id <= runIdRef st)%Z /\ (settled r = true -> finished r = true).

End V2.

(** ** Third implementation: one shared worker, a map of pending runs *)

Module V3.

(** *** The worker script *)

Definition CDN_SOURCES : list string :=
  ["https://cdn.jsdelivr.net/npm/php-wasm@latest/dist/php-wasm.js";
   "https://unpkg.com/php-wasm@latest/dist/php-wasm.js";
   "https://cdn.skypack.dev/php-wasm@latest"].

(** The entry points [executePHP] probes for, in its order. *)
Record engine : Type := {
  run : option (string -> Js.outcome);
  php_run : option (string -> Js.outcome);
  exec : option (string -> Js.outcome);
  php_exec : option (string -> Js.outcome)
}.

(** One turn of the loop of [loadPHPWithFallback]: the import fails, the
    module has no [PhpWeb], the instance is built but its initialisation
    throws, or the instance is ready. *)
Inductive attempt : Type :=
| ImportFails (message : string)
| NoPhpWeb
| InitFails (inst : engine) (message : string)
| Ready (inst : engine).

Definition allFailed : string := "All PHP-WASM CDN sources failed to load".

(** [phpInstance] is assigned before the initialisation is awaited. *)
Fixpoint tryAll (imp : string -> attempt) (cdns : list string) (phpInstance : option engine)
  : option engine * (engine + string) :=
  match cdns with
  | [] => (phpInstance, inr allFailed)
  | cdn :: rest =>
      match imp cdn with
      | ImportFails _ | NoPhpWeb => tryAll imp rest phpInstance
      | InitFails inst _ => tryAll imp rest (Some inst)
      | Ready inst => (Some inst, inl inst)
      end
  end.

Definition loadPHPWithFallback (imp : string -> attempt) (phpInstance : option engine)
  : option engine * (engine + string) :=
  tryAll imp CDN_SOURCES phpInstance.

(** No source gives a ready instance. *)
Definition neverLoads (imp : string -> attempt) : Prop :=
  forall cdn, match imp cdn with Ready _ => False | _ => True end.

Definition initFailed : Js.message :=
  [("type", Js.VStr "error");
   ("error", Js.VStr ("PHP initialization failed: " ++ allFailed))].

Definition noMethod : string := "No valid PHP execution method found".

Definition callFirst (inst : engine) (code : string) : Js.outcome :=
  match run inst, php_run inst, exec inst, php_exec inst with
  | Some f, _, _, _ => f code
  | None, Some f, _, _ => f code
  | None, None, Some f, _ => f code
  | None, None, None, Some f => f code
  | None, None, None, None => Js.Throws noMethod
  end.

Definition executePHP (imp : string -> attempt) (phpInstance : option engine) (code : string)
  : option engine * Js.outcome :=
  match phpInstance with
  | Some inst => (phpInstance, callFirst inst code)
  | None =>
      match loadPHPWithFallback imp None with
      | (inst', inr m) => (inst', Js.Throws m)
      | (inst', inl _) =>
          match inst' with
          | Some inst => (inst', callFirst inst code)
          | None => (inst', Js.Throws noMethod)
          end
      end
  end.

(** [self.onmessage] of the worker: the new [phpInstance] and the
    message posted back, if any. *)
Definition worker_onmessage (imp : string -> attempt) (phpInstance : option engine)
    (data : Js.message) : option engine * list Js.message :=
  if Js.isString "ping" (Js.field data "type") then
    match loadPHPWithFallback imp phpInstance with
    | (inst', inl _) => (inst', [[("type", Js.VStr "ready"); ("ready", Js.VBool true)]])
    | (inst', inr m) =>
        (inst', [[("type", Js.VStr "error");
                  ("error", Js.VStr ("PHP initialization failed: " ++ m))]])
    end
  else if Js.isString "run" (Js.field data "type") then
    match executePHP imp phpInstance (Js.toStr (Js.field data "code")) with
    | (inst', Js.Returns result) =>
        (inst', [[("type", Js.VStr "result");
                  ("output", Js.VStr (if Js.resultTruthy result
                                      then Js.resultToStr result else ""));
                  ("id", Js.field data "id")]])
    | (inst', Js.Throws m) =>
        (inst', [[("type", Js.VStr "error");
                  ("error", Js.VStr (if Str.isEmpty m then "PHP execution failed" else m));
                  ("id", Js.field data "id")]])
    end
  else (phpInstance, []).

(** *** The widget *)

(** [pendingExecutions] maps a run identifier to the handle of its
    timer; [timers] holds the armed timers with what their callback
    captured (the run identifier and [timeoutMs]); [suspended] holds the
    [runCode] calls waiting on [initializeWorker], with the source each
    captured. *)
Record state : Type := {
  src : string;
  output : string;
  isHtmlOutput : bool;
  status : Status.t;
  lastError : Js.value;
  runIdRef : Z;
  isWorkerReady : bool;
  pendingExecutions : gmap Z nat;
  timers : gmap nat (Z * Z);
  nextTimer : nat;
  suspended : list string;
  posted : list Js.message
}.

Definition setSrc v st :=
  {| src := v; output := output st; isHtmlOutput := isHtmlOutput st; status := status st;
     lastError := lastError st; runIdRef := runIdRef st; isWorkerReady := isWorkerReady st;
     pendingExecutions := pendingExecutions st; timers := timers st;
     nextTimer := nextTimer st; suspended := suspended st; posted := posted st |}.
Definition setOutput v st :=
  {| src := src st; output := v; isHtmlOutput := isHtmlOutput st; status := status st;
     lastError := lastError st; runIdRef := runIdRef st; isWorkerReady := isWorkerReady st;
     pendingExecutions := pendingExecutions st; timers := timers st;
     nextTimer := nextTimer st; suspended := suspended st; posted := posted st |}.
Definition setIsHtmlOutput v st :=
  {| src := src st; output := output st; isHtmlOutput := v; status := status st;
     lastError := lastError st; runIdRef := runIdRef st; isWorkerReady := isWorkerReady st;
     pendingExecutions := pendingExecutions st; timers := timers st;
     nextTimer := nextTimer st; suspended := suspended st; posted := posted st |}.
Definition setStatus v st :=
  {| src := src st; output := output st; isHtmlOutput := isHtmlOutput st; status := v;
     lastError := lastError st; runIdRef := runIdRef st; isWorkerReady := isWorkerReady st;
     pendingExecutions := pendingExecutions st; timers := timers st;
     nextTimer := nextTimer st; suspended := suspended st; posted := posted st |}.
Definition setLastError v st :=
  {| src := src st; output := output st; isHtmlOutput := isHtmlOutput st;
     status := status st; lastError := v; runIdRef := runIdRef st;
     isWorkerReady := isWorkerReady st; pendingExecutions := pendingExecutions st;
     timers := timers st; nextTimer := nextTimer st; suspended := suspended st;
     posted := posted st |}.
Definition setRunIdRef v st :=
  {| src := src st; output := output st; isHtmlOutput := isHtmlOutput st;
     status := status st; lastError := lastError st; runIdRef := v;
     isWorkerReady := isWorkerReady st; pendingExecutions := pendingExecutions st;
     timers := timers st; nextTimer := nextTimer st; suspended := suspended st;
     posted := posted st |}.
Definition setIsWorkerReady v st :=
  {| src := src st; output := output st; isHtmlOutput := isHtmlOutput st;
     status := status st; lastError := lastError st; runIdRef := runIdRef st;
     isWorkerReady := v; pendingExecutions := pendingExecutions st; timers := timers st;
     nextTimer := nextTimer st; suspended := suspended st; posted := posted st |}.
Definition setPendingExecutions v st :=
  {| src := src st; output := output st; isHtmlOutput := isHtmlOutput st;
     status := status st; lastError := lastError st; runIdRef := runIdRef st;
     isWorkerReady := isWorkerReady st; pendingExecutions := v; timers := timers st;
     nextTimer := nextTimer st; suspended := suspended st; posted := posted st |}.
Definition setTimers v st :=
  {| src := src st; output := output st; isHtmlOutput := isHtmlOutput st;
     status := status st; lastError := lastError st; runIdRef := runIdRef st;
     isWorkerReady := isWorkerReady st; pendingExecutions := pendingExecutions st;
     timers := v; nextTimer := nextTimer st; suspended := suspended st;
     posted := posted st |}.
Definition setNextTimer v st :=
  {| src := src st; output := output st; isHtmlOutput := isHtmlOutput st;
     status := status st; lastError := lastError st; runIdRef := runIdRef st;
     isWorkerReady := isWorkerReady st; pendingExecutions := pendingExecutions st;
     timers := timers st; nextTimer := v; suspended := suspended st;
     posted := posted st |}.
Definition setSuspended v st :=
  {| src := src st; output := output st; isHtmlOutput := isHtmlOutput st;
     status := status st; lastError := lastError st; runIdRef := runIdRef st;
     isWorkerReady := isWorkerReady st; pendingExecutions := pendingExecutions st;
     timers := timers st; nextTimer := nextTimer st; suspended := v;
     posted := posted st |}.
Definition setPosted v st :=
  {| src := src st; output := output st; isHtmlOutput := isHtmlOutput st;
     status := status st; lastError := lastError st; runIdRef := runIdRef st;
     isWorkerReady := isWorkerReady st; pendingExecutions := pendingExecutions st;
     timers := timers st; nextTimer := nextTimer st; suspended := suspended st;
     posted := v |}.

Definition initial (code : string) : state :=
  {| src := code; output := ""; isHtmlOutput := false; status := Status.idle;
     lastError := Js.VNull; runIdRef := 0; isWorkerReady := false;
     pendingExecutions := ∅; timers := ∅; nextTimer := 0; suspended := [];
     posted := [] |}.

(** What is on screen. *)
Definition visible (st : state) : string * Js.value * Status.t :=
  (output st, lastError st, status st).

(** [pendingExecutions.current.get(runId)] for a value read off a
    message: only a number can be a key. *)
Definition pendingOf (runId : Js.value) (st : state) : option nat :=
  match runId with
  | Js.VNum n => pendingExecutions st !! n
  | _ => None
  end.

Definition keyOf (runId : Js.value) : Z :=
  match runId with Js.VNum n => n | _ => 0%Z end.

Definition clearTimeout (h : nat) (st : state) : state :=
  setTimers (delete h (timers st)) st.

(** Lines 39 to 51: the text of a result message. *)
Definition resultText (msg : Js.message) : string :=
  if negb (Js.isUndefined (Js.field msg "output")) then Js.toStr (Js.field msg "output")
  else if negb (Js.isUndefined (Js.field msg "result")) then Js.toStr (Js.field msg "result")
  else if negb (Js.isUndefined (Js.field msg "stdout")) then
    Js.toStr (Js.field msg "stdout")
    ++ (if Js.truthy (Js.field msg "stderr")
        then Js.nl ++ Js.toStr (Js.field msg "stderr") else "")
  else Js.stringify msg.

Definition isResult (msg : Js.message) : bool :=
  Js.isString "result" (Js.field msg "type")
  || Js.isString "output" (Js.field msg "type")
  || negb (Js.isUndefined (Js.field msg "output")).

Definition isError (msg : Js.message) : bool :=
  Js.isString "error" (Js.field msg "type") || Js.truthy (Js.field msg "error").

Definition handleWorkerMessage (msg : Js.message) (st : state) : state :=
  let runId := Js.or (Js.field msg "id") (Js.field msg "runId") in
  if negb (Js.truthy runId) then st
  else match pendingOf runId st with
  | None => st
  | Some timeoutId =>
      if isResult msg then
        let st := clearTimeout timeoutId st in
        let st := setPendingExecutions (delete (keyOf runId) (pendingExecutions st)) st in
        let result := resultText msg in
        let looksLikeHtml := Output.looksLikeHtml result in
        setStatus Status.idle (setOutput result (setIsHtmlOutput looksLikeHtml st))
      else if isError msg then
        let st := clearTimeout timeoutId st in
        let st := setPendingExecutions (delete (keyOf runId) (pendingExecutions st)) st in
        let errorMsg :=
          Js.or (Js.field msg "error") (Js.or (Js.field msg "message") (Js.VStr "Unknown error")) in
        setOutput ("[Error] " ++ Js.toStr errorMsg)
          (setLastError errorMsg (setStatus Status.error st))
      else st
  end.

(** [worker.onmessage], as [initializeWorker] installs it. *)
Definition onmessage (msg : Js.message) (st : state) : state :=
  if Js.isString "ready" (Js.field msg "type")
     || match Js.field msg "ready" with Js.VBool true => true | _ => false end
  then setIsWorkerReady true st
  else handleWorkerMessage msg st.

(** [worker.onerror]. *)
Definition onerror (st : state) : state := setIsWorkerReady false st.

(** How the promise of [initializeWorker] settles. *)
Inductive init_outcome : Type :=
| InitResolved
| InitRejected (message : Js.value).

(** [runCode] up to [await initializeWorker()]. *)
Definition runCode_begin (st : state) : state :=
  let st := setStatus Status.loading
              (setOutput "" (setIsHtmlOutput false (setLastError Js.VNull st))) in
  setSuspended (app (suspended st) [src st]) st.

(** The [catch] branch of [runCode]. *)
Definition runCode_catch (message : Js.value) (st : state) : state :=
  setOutput ("[Error] " ++ Js.toStr message)
    (setLastError message (setStatus Status.error st)).

(** The rest of the [try] branch, for the source [code] the call
    captured. *)
Definition runCode_run (timeoutMs : Z) (code : string) (st : state) : state :=
  if negb (isWorkerReady st) then runCode_catch (Js.VStr "Worker not ready") st
  else
    let st := setStatus Status.running st in
    let runId := (runIdRef st + 1)%Z in
    let st := setRunIdRef runId st in
    let timeoutId := nextTimer st in
    let st := setNextTimer (S timeoutId) (setTimers (<[timeoutId := (runId, timeoutMs)]> (timers st)) st) in
    let st := setPendingExecutions (<[runId := timeoutId]> (pendingExecutions st)) st in
    setPosted (app (posted st)
                   [[("type", Js.VStr "run"); ("code", Js.VStr code); ("id", Js.VNum runId)]]) st.

(** The continuation of the oldest suspended [runCode]. *)
Definition runCode_resume (timeoutMs : Z) (o : init_outcome) (st : state) : state :=
  match suspended st with
  | [] => st
  | code :: rest =>
      let st := setSuspended rest st in
      match o with
      | InitRejected message => runCode_catch message st
      | InitResolved => runCode_run timeoutMs code st
      end
  end.

(** The callback of a run's timer. *)
Definition timerFired (h : nat) (st : state) : state :=
  match timers st !! h with
  | None => st
  | Some (runId, timeoutMs) =>
      let st := setTimers (delete h (timers st)) st in
      match pendingExecutions st !! runId with
      | Some _ =>
          let st := setPendingExecutions (delete runId (pendingExecutions st)) st in
          setOutput "[Error] Execution timeout"
            (setLastError (Js.VStr ("Execution timeout after " ++ Str.ofNumber timeoutMs ++ " ms"))
               (setStatus Status.timeout st))
      | None => st
      end
  end.

(** [pendingExecutions.current.forEach(({ timeoutId }) =>
    clearTimeout(timeoutId))]. *)
Definition clearAll (st : state) : state :=
  fold_right (fun entry acc => clearTimeout (snd entry) acc) st
             (map_to_list (pendingExecutions st)).

Definition stopExecution (st : state) : state :=
  setOutput "[Execution stopped]"
    (setStatus Status.stopped (setPendingExecutions ∅ (clearAll st))).

Definition resetCode (code : string) (st : state) : state :=
  setLastError Js.VNull (setStatus Status.idle (setOutput "" (setSrc code st))).

Definition clearOutput (st : state) : state :=
  setLastError Js.VNull (setOutput "" st).

(** *** [initializeWorker] without a ready worker

    Lines 196 to 237: the worker at hand, if any, is terminated; a new one
    is created and sent a ping, and a timer of 10 s is set.  The promise
    resolves at the first message that says ready; it is rejected when the
    worker reports an error, or when the timer fires first.  A promise
    settles once: the first of these events decides. *)
Definition isReady (msg : Js.message) : bool :=
  Js.isString "ready" (Js.field msg "type")
  || match Js.field msg "ready" with Js.VBool true => true | _ => false end.

Definition ping : Js.message := [("type", Js.VStr "ping")].

Definition initTimeout : string := "Worker initialization timeout".

Inductive init_event : Type :=
| InitMessage (msg : Js.message)
| InitError (message : Js.value)
| InitTimerFired.

(** How the promise has settled after these events; [None] while it is
    pending. *)
Fixpoint initializeWorker_settle (evs : list init_event) : option init_outcome :=
  match evs with
  | [] => None
  | InitMessage msg :: rest =>
      if isReady msg then Some InitResolved else initializeWorker_settle rest
  | InitError message :: _ => Some (InitRejected message)
  | InitTimerFired :: _ => Some (InitRejected (Js.VStr initTimeout))
  end.

(** What each of them does to the widget: the handlers
    [initializeWorker] installs; the timer only rejects the promise. *)
Definition init_step (st : state) (ev : init_event) : state :=
  match ev with
  | InitMessage msg => onmessage msg st
  | InitError _ => onerror st
  | InitTimerFired => st
  end.

(** *** Events *)
Inductive event : Type :=
| RunClicked
| RunResumed (o : init_outcome)
| StopClicked
| ResetClicked
| ClearClicked
| SrcEdited (text : string)
| TimerFired (h : nat)
| WorkerMessage (msg : Js.message)
| WorkerError.

Definition step (code : string) (timeoutMs : Z) (st : state) (ev : event) : state :=
  match ev with
  | RunClicked => runCode_begin st
  | RunResumed o => runCode_resume timeoutMs o st
  | StopClicked => stopExecution st
  | ResetClicked => resetCode code st
  | ClearClicked => clearOutput st
  | SrcEdited text => setSrc text st
  | TimerFired h => timerFired h st
  | WorkerMessage msg => onmessage msg st
  | WorkerError => onerror st
  end.

Definition steps (code : string) (timeoutMs : Z) (st : state) (evs : list event) : state :=
  fold_left (step code timeoutMs) evs st.

(** What the page and the browser allow: Run is disabled while the status
    is [running] or [loading], Stop while nothing is pending; a timer
    fires only while armed; a continuation needs a suspended call. *)
Definition enabled (st : state) (ev : event) : bool :=
  match ev with
  | RunClicked =>
      negb (Status.eqb (status st) Status.running || Status.eqb (status st) Status.loading)
  | RunResumed _ => match suspended st with [] => false | _ => true end
  | StopClicked => negb (size (pendingExecutions st) =? 0)%nat
  | ResetClicked | ClearClicked | SrcEdited _ => true
  | TimerFired h => match timers st !! h with Some _ => true | None => false end
  | WorkerMessage _ | WorkerError => true
  end.

Fixpoint feasible (code : string) (timeoutMs : Z) (st : state) (evs : list event) : bool :=
  match evs with
  | [] => true
  | ev :: rest =>
      enabled st ev && feasible code timeoutMs (step code timeoutMs st ev) rest
  end.

(** The states the widget can be in: those a sequence of events leads to
    from the mounted widget. *)
Definition reachable (code : string) (timeoutMs : Z) (st : state) : Prop :=
  exists evs, st = steps code timeoutMs (initial code) evs.

(** Run [N] has been issued and is no longer pending: it has settled
    (result, error, time-out) or was stopped. *)
Definition over (st : state) (N : Z) : Prop :=
  pendingExecutions st !! N = None /\ (N <= runIdRef st)%Z.

(** Every pending identifier has been issued. *)
Definition wf (st : state) : Prop :=
  forall k h, pendingExecutions st !! k = Some h -> (k <= runIdRef st)%Z.

End V3.

(** ** Concrete runs of the widget, used as examples below *)

Module Scenario.

Definition code : string := "echo 1;".

(** *** Third implementation *)

(** A runtime whose [run] prints its source. *)
Definition echo : V3.engine :=
  {| V3.run := Some (fun source => Js.Returns (Js.RValue (Js.VStr source)));
     V3.php_run := None; V3.exec := None; V3.php_exec := None |}.

Definition allLoad (_ : string) : V3.attempt := V3.Ready echo.
Definition noneLoads (_ : string) : V3.attempt := V3.ImportFails "Failed to fetch".

Definition ready : Js.message := [("type", Js.VStr "ready"); ("ready", Js.VBool true)].

(** The request of run [id] and the worker's answer to it. *)
Definition request (id : Z) : Js.message :=
  [("type", Js.VStr "run"); ("code", Js.VStr code); ("id", Js.VNum id)].
Definition reply (id : Z) : Js.message :=
  [("type", Js.VStr "result"); ("output", Js.VStr code); ("id", Js.VNum id)].

Definition mounted : V3.state :=
  V3.steps code 30000 (V3.initial code) [V3.WorkerMessage ready].

(** Run, Reset while the run is pending, Run again. *)
Definition runResetRun : list V3.event :=
  [V3.WorkerMessage ready;
   V3.RunClicked; V3.RunResumed V3.InitResolved;
   V3.ResetClicked;
   V3.RunClicked; V3.RunResumed V3.InitResolved].

(** Run, then the timer of the run fires. *)
Definition timedOut3 : V3.state :=
  V3.steps code 30000 (V3.initial code)
    [V3.WorkerMessage ready; V3.RunClicked; V3.RunResumed V3.InitResolved; V3.TimerFired 0].

(** Run again. *)
Definition runAgain : list V3.event := [V3.RunClicked; V3.RunResumed V3.InitResolved].

(** One run in flight. *)
Definition oneRun : list V3.event :=
  [V3.WorkerMessage ready; V3.RunClicked; V3.RunResumed V3.InitResolved].

(** *** Second implementation *)

Definition url : string := "http://localhost/php-wasm/php-worker.mjs".

Definition echo2 : V2.engine :=
  {| V2.run := fun source => Js.Returns (Js.RValue (Js.VStr source)) |}.

Definition noneLoads2 (_ : string) : V2.import_result := V2.ImportFails "Failed to fetch".

Definition reply2 (id : Z) : Js.message :=
  [("type", Js.VStr "result"); ("id", Js.VNum id); ("result", Js.VStr code)].

Definition request2 : Js.message :=
  [("type", Js.VStr "run"); ("id", Js.VNum 1); ("code", Js.VStr code);
   ("timeoutMs", Js.VNum 8000)].

Definition loadFailed2 : Js.message := V2.errorMessage (Js.VNum 1) (V2.loadError url).

(** Run, Stop. *)
Definition runStop : list V2.event := [V2.RunClicked; V2.StopClicked].

(** Run, then the timer of the run fires. *)
Definition timedOut2 : V2.state :=
  V2.steps code 8000 (V2.initial code) [V2.RunClicked; V2.TimerFired 1].

Definition runAgain2 : list V2.event := [V2.RunClicked].

(** *** First implementation *)

Definition echo1 : V1.engine :=
  {| V1.run := Some (fun source => Js.Returns (Js.RValue (Js.VStr source)));
     V1.execute := None; V1.exec := None; V1.runString := None |}.

Definition plainOutput : V1.state :=
  V1.setOutput "a < b && b > c" (V1.initial (Some code)).

(** The runtime is there and a run is in flight. *)
Definition loaded1 : V1.state := V1.setPhp (Some echo1) (V1.initial (Some code)).
Definition racing1 : V1.state := V1.runCode 8000 V1.ImportFails loaded1.

(** That run has timed out. *)
Definition timedOut1 : V1.state := V1.timerFired 0 racing1.

(** *** Engines that answer with two streams, or with [null] *)

Definition twoStreams : Js.result := Js.RStruct (Js.VStr "out") (Js.VStr "warn").

Definition streams1 : V1.engine :=
  {| V1.run := Some (fun _ => Js.Returns twoStreams);
     V1.execute := None; V1.exec := None; V1.runString := None |}.

(** The same behind [runString] alone. *)
Definition runStringOnly1 : V1.engine :=
  {| V1.run := None; V1.execute := None; V1.exec := None;
     V1.runString := Some (fun _ => Js.Returns twoStreams) |}.

Definition streams3 : V3.engine :=
  {| V3.run := Some (fun _ => Js.Returns twoStreams);
     V3.php_run := None; V3.exec := None; V3.php_exec := None |}.

Definition null2 : V2.engine :=
  {| V2.run := fun _ => Js.Returns (Js.RValue Js.VNull) |}.

(** A worker address with the word [timeout] in it. *)
Definition urlTimeout : string := "http://localhost/timeout/php-worker.mjs".

End Scenario.

(* ================================================================== *)
(** * Part II: properties *)
(* ================================================================== *)

(** Case analysis on the first [match] or [if] of the goal. *)
Ltac break_match :=
  match goal with
  | |- context [match ?x with _ => _ end] => destruct x eqn:?
  | |- context [if ?x then _ else _] => destruct x eqn:?
  end.

(** ** Strings *)

Section StringFacts.

Lemma append_nil_r (s : string) : s ++ "" = s.
Proof. induction s as [|c s IH]; simpl; [reflexivity | now rewrite IH]. Qed.

Lemma append_assoc (s1 s2 s3 : string) : (s1 ++ s2) ++ s3 = s1 ++ (s2 ++ s3).
Proof. induction s1 as [|c s1 IH]; simpl; [reflexivity | now rewrite IH]. Qed.

Lemma append_eq_nil (s1 s2 : string) : s1 ++ s2 = "" -> s1 = "" /\ s2 = "".
Proof. destruct s1; simpl; [intros ->; split; reflexivity | discriminate]. Qed.

Lemma append_eq_cons (s1 s2 : string) (c : ascii) (s : string) :
  s1 ++ s2 = String c s ->
  (s1 = "" /\ s2 = String c s) \/ (exists s1', s1 = String c s1' /\ s = s1' ++ s2).
Proof.
  destruct s1 as [|a s1]; simpl; intros H.
  - left; split; [reflexivity | exact H].
  - right. injection H as -> <-. exists s1; split; reflexivity.
Qed.

Lemma length_append (s1 s2 : string) :
  String.length (s1 ++ s2) = (String.length s1 + String.length s2)%nat.
Proof. induction s1 as [|c s1 IH]; simpl; [reflexivity | now rewrite IH]. Qed.

End StringFacts.

(** ** The regular-expression matcher agrees with the language *)

Module RegexFacts.
Import Regex.

Lemma nullable_sound r : nullable r = true -> matches r "".
Proof.
  induction r as [| |p|r1 IH1 r2 IH2|r1 IH1 r2 IH2|r IH]; simpl; intros H;
    try discriminate.
  - constructor.
  - apply andb_true_iff in H as [H1 H2].
    change "" with ("" ++ ""). constructor; auto.
  - apply orb_true_iff in H as [H|H]; [apply MAltL | apply MAltR]; auto.
  - constructor.
Qed.

Lemma nullable_complete r s : matches r s -> s = "" -> nullable r = true.
Proof.
  induction 1 as [|p c Hp|r1 r2 s1 s2 _ IH1 _ IH2|r1 r2 s _ IH|r1 r2 s _ IH
                 |r|r s1 s2 _ _ _ _]; simpl; intros E; try reflexivity;
    try discriminate.
  - apply append_eq_nil in E as [-> ->]. rewrite IH1, IH2; reflexivity.
  - rewrite IH; auto.
  - rewrite IH; auto. apply orb_true_r.
Qed.

Lemma nullable_spec r : nullable r = true <-> matches r "".
Proof.
  split; [apply nullable_sound | intros H; eapply nullable_complete; eauto].
Qed.

Lemma deriv_complete r t :
  matches r t -> forall c s, t = String c s -> matches (deriv c r) s.
Proof.
  induction 1 as [|p a Hp|r1 r2 s1 s2 H1 IH1 H2 IH2|r1 r2 s0 _ IH|r1 r2 s0 _ IH
                 |r|r s1 s2 H1 IH1 H2 IH2]; intros c s E; simpl.
  - discriminate.
  - injection E as -> <-. rewrite Hp. constructor.
  - apply append_eq_cons in E as [[-> E]|[s1' [-> ->]]].
    + assert (Hn : nullable r1 = true) by (apply nullable_spec; exact H1).
      rewrite Hn. apply MAltR. eapply IH2; eauto.
    + destruct (nullable r1).
      * apply MAltL. constructor; [eapply IH1; eauto | exact H2].
      * constructor; [eapply IH1; eauto | exact H2].
  - apply MAltL. eapply IH; eauto.
  - apply MAltR. eapply IH; eauto.
  - discriminate.
  - apply append_eq_cons in E as [[-> E]|[s1' [-> ->]]].
    + eapply (IH2 c s); eauto.
    + constructor; [eapply IH1; eauto | exact H2].
Qed.

Lemma deriv_sound c r : forall s, matches (deriv c r) s -> matches r (String c s).
Proof.
  induction r as [| |p|r1 IH1 r2 IH2|r1 IH1 r2 IH2|r IH]; simpl; intros s H.
  - inversion H.
  - inversion H.
  - destruct (p c) eqn:Hp; inversion H; subst. constructor; exact Hp.
  - destruct (nullable r1) eqn:Hn.
    + inversion H as [| |? ? ? ? ? ? |? ? ? HL|? ? ? HR| |]; subst.
      * inversion HL; subst.
        change (String c (s1 ++ s2)) with (String c s1 ++ s2).
        constructor; auto.
      * change (String c s) with ("" ++ String c s).
        constructor; [apply nullable_spec; exact Hn | auto].
    + inversion H; subst.
      change (String c (s1 ++ s2)) with (String c s1 ++ s2).
      constructor; auto.
  - inversion H; subst; [apply MAltL | apply MAltR]; auto.
  - inversion H; subst.
    change (String c (s1 ++ s2)) with (String c s1 ++ s2).
    constructor; auto.
Qed.

Lemma matchPrefix_spec s : forall r,
  matchPrefix r s = true <-> exists m post, s = m ++ post /\ matches r m.
Proof.
  induction s as [|c s IH]; intros r; simpl.
  - rewrite orb_false_r, nullable_spec. split.
    + intros H. exists "", "". split; [reflexivity | exact H].
    + intros (m & post & E & H). symmetry in E.
      apply append_eq_nil in E as [-> _]. exact H.
  - rewrite orb_true_iff, nullable_spec, IH. split.
    + intros [H|(m & post & -> & H)].
      * exists "", (String c s). split; [reflexivity | exact H].
      * exists (String c m), post. split; [reflexivity | apply deriv_sound; exact H].
    + intros (m & post & E & H). destruct m as [|a m].
      * left; exact H.
      * right. simpl in E. injection E as <- ->.
        exists m, post. split; [reflexivity | eapply deriv_complete; eauto].
Qed.

Lemma test_spec r s :
  test r s = true <-> exists pre m post, s = pre ++ m ++ post /\ matches r m.
Proof.
  induction s as [|c s IH]; simpl.
  - rewrite orb_false_r. change (nullable r || false) with (matchPrefix r "").
    rewrite matchPrefix_spec. split.
    + intros (m & post & E & H). exists "", m, post. auto.
    + intros (pre & m & post & E & H). symmetry in E.
      apply append_eq_nil in E as [-> E]. exists m, post. auto.
  - change (nullable r || matchPrefix (deriv c r) s) with (matchPrefix r (String c s)).
    rewrite orb_true_iff, matchPrefix_spec, IH. split.
    + intros [(m & post & E & H)|(pre & m & post & -> & H)].
      * exists "", m, post. auto.
      * exists (String c pre), m, post. auto.
    + intros (pre & m & post & E & H). destruct pre as [|a pre].
      * left. exists m, post. auto.
      * right. simpl in E. injection E as <- ->. exists pre, m, post. auto.
Qed.

Lemma matches_Lit c s : matches (Lit c) s <-> s = String c "".
Proof.
  unfold Lit. split.
  - inversion 1; subst. f_equal. symmetry. now apply Ascii.eqb_eq.
  - intros ->. constructor. apply Ascii.eqb_refl.
Qed.

Lemma matches_any s : matches (Star (Class anyChar)) s.
Proof.
  induction s as [|c s IH]; [constructor |].
  change (String c s) with (String c "" ++ s).
  constructor; [now constructor | exact IH].
Qed.

Lemma matches_Seq r1 r2 s :
  matches (Seq r1 r2) s <-> exists s1 s2, s = s1 ++ s2 /\ matches r1 s1 /\ matches r2 s2.
Proof.
  split.
  - inversion 1; subst. eauto.
  - intros (s1 & s2 & -> & H1 & H2). now constructor.
Qed.

Lemma matches_Opt r s : matches (Opt r) s <-> s = "" \/ matches r s.
Proof.
  unfold Opt. split.
  - inversion 1 as [| | |? ? ? HL|? ? ? HR| |]; subst; [right; exact HL | left].
    now inversion HR.
  - intros [->|H]; [apply MAltR; constructor | now apply MAltL].
Qed.

(** What one match of the tag pattern looks like. *)
Lemma matches_tagRegex m :
  matches tagRegex m <->
  exists slash c mid,
    m = "<" ++ slash ++ String c (mid ++ ">")
    /\ (slash = "" \/ slash = "/") /\ isLetter c = true.
Proof.
  unfold tagRegex. split.
  - intros H.
    apply matches_Seq in H as (a & m1 & -> & Ha & H). apply matches_Lit in Ha as ->.
    apply matches_Seq in H as (sl & m2 & -> & Hs & H).
    apply matches_Seq in H as (l & m3 & -> & Hl & H).
    apply matches_Seq in H as (mid & g & -> & _ & Hg). apply matches_Lit in Hg as ->.
    inversion Hl as [|p c Hc| | | | |]; subst.
    exists sl, c, mid. split; [reflexivity | split; [| exact Hc]].
    apply matches_Opt in Hs as [->|Hs]; [now left | right].
    now apply matches_Lit in Hs.
  - intros (sl & c & mid & -> & Hsl & Hc).
    apply matches_Seq. exists "<", (sl ++ String c (mid ++ ">")).
    split; [reflexivity | split; [now apply matches_Lit |]].
    apply matches_Seq. exists sl, (String c (mid ++ ">")).
    split; [reflexivity | split].
    + apply matches_Opt. destruct Hsl as [->| ->]; [now left | right; now apply matches_Lit].
    + apply matches_Seq. exists (String c ""), (mid ++ ">").
      split; [reflexivity | split; [now constructor |]].
      apply matches_Seq. exists mid, ">".
      split; [reflexivity | split; [apply matches_any | now apply matches_Lit]].
Qed.

End RegexFacts.

(** ** Classification and escaping *)

Module OutputFacts.
Import Output.

(** The test of the tag pattern finds exactly the opening-or-closing
    tag shape. *)
Lemma looksLikeHtml_iff (s : string) : looksLikeHtml s = true <-> tagLikeOC s.
Proof.
  unfold looksLikeHtml, tagLikeOC. rewrite RegexFacts.test_spec. split.
  - intros (pre & m & post & -> & Hm).
    apply RegexFacts.matches_tagRegex in Hm as (sl & c & mid & -> & Hsl & Hc).
    exists pre, sl, c, mid, post. split; [| split; assumption].
    f_equal. simpl. f_equal. rewrite append_assoc. f_equal. simpl. f_equal.
    now rewrite append_assoc.
  - intros (pre & sl & c & mid & post & -> & Hsl & Hc).
    exists pre, ("<" ++ sl ++ String c (mid ++ ">")), post. split.
    + f_equal. simpl. f_equal. rewrite append_assoc. f_equal. simpl. f_equal.
      now rewrite append_assoc.
    + apply RegexFacts.matches_tagRegex. exists sl, c, mid. auto.
Qed.

Lemma looksLikeHTML_eq (s : string) : looksLikeHTML s = looksLikeHtml s.
Proof. destruct s; reflexivity. Qed.

Lemma not_tagLikeOC (s : string) : looksLikeHtml s = false -> ~ tagLikeOC s.
Proof. intros H T. apply looksLikeHtml_iff in T. congruence. Qed.

Lemma tagLike_tagLikeOC (s : string) : tagLike s -> tagLikeOC s.
Proof.
  intros (pre & c & mid & post & -> & Hc).
  exists pre, "", c, mid, post. simpl. auto.
Qed.

Lemma escapeHtml_cons (c : ascii) (s : string) :
  escapeHtml (String c s) = escapeChar c ++ escapeHtml s.
Proof.
  unfold escapeHtml, escapeChar.
  destruct c as [[] [] [] [] [] [] [] []]; reflexivity.
Qed.

Lemma escapeHtml_escapeEach (s : string) : escapeHtml s = escapeEach s.
Proof.
  induction s as [|c s IH]; [reflexivity |].
  rewrite escapeHtml_cons, IH. reflexivity.
Qed.

Lemma length_escapeChar (c : ascii) : (1 <= String.length (escapeChar c))%nat.
Proof. destruct c as [[] [] [] [] [] [] [] []]; simpl; lia. Qed.

Lemma decodeFuel_escapeEach (s : string) : forall n,
  (String.length (escapeEach s) <= n)%nat -> decodeFuel n (escapeEach s) = s.
Proof.
  induction s as [|c s IH]; intros n Hn.
  - destruct n; reflexivity.
  - simpl in Hn. rewrite length_append in Hn.
    destruct n as [|n]; [pose proof (length_escapeChar c); lia |].
    destruct c as [[] [] [] [] [] [] [] []];
      simpl in Hn |- *; f_equal; apply IH; lia.
Qed.

Lemma decodeEntities_escapeHtml (s : string) : decodeEntities (escapeHtml s) = s.
Proof.
  rewrite escapeHtml_escapeEach. unfold decodeEntities.
  apply decodeFuel_escapeEach. lia.
Qed.

End OutputFacts.

(** C6, as the code has it: a text is classified [Markup] exactly when it
    contains [<], then an optional [/], then an ASCII letter of either case,
    then any text, then [>]; otherwise it is [PlainText].  V1's
    [looksLikeHTML] decides the same. *)
Theorem C6_classify_iff_open_or_close_tag (s : string) :
  (Output.classify s = Output.Markup <-> Output.tagLikeOC s)
  /\ (Output.classify s = Output.PlainText <-> ~ Output.tagLikeOC s)
  /\ Output.looksLikeHTML s = Output.looksLikeHtml s.
Proof.
  pose proof (OutputFacts.looksLikeHtml_iff s) as H.
  unfold Output.classify. split; [| split].
  - destruct (Output.looksLikeHtml s); split; intros H'; try discriminate; try reflexivity.
    + now apply H.
    + apply H in H'. discriminate.
  - destruct (Output.looksLikeHtml s); split; intros H'; try discriminate; try reflexivity.
    + exfalso. apply H'. now apply H.
    + intros T. apply H in T. discriminate.
  - apply OutputFacts.looksLikeHTML_eq.
Qed.

(** C6, as the specification words it, fails on a closing tag: ["</b>"] is
    classified [Markup] although no [<] in it is followed by a letter. *)
Lemma C6_closing_tag_counterexample :
  Output.classify "</b>" = Output.Markup /\ ~ Output.tagLike "</b>".
Proof.
  split; [reflexivity |].
  intros (pre & c & mid & post & E & Hc).
  destruct pre as [|a0 pre]; simpl in E.
  { injection E as <- _. discriminate Hc. }
  injection E as _ E.
  destruct pre as [|a1 pre]; simpl in E; [discriminate E |].
  injection E as _ E.
  destruct pre as [|a2 pre]; simpl in E; [discriminate E |].
  injection E as _ E.
  destruct pre as [|a3 pre]; simpl in E; [discriminate E |].
  injection E as _ E.
  destruct pre; simpl in E; discriminate E.
Qed.

(** ** Third implementation: pending runs *)

Module V3Facts.
Import V3.

Lemma runIdRef_handle (msg : Js.message) (st : state) :
  runIdRef (handleWorkerMessage msg st) = runIdRef st.
Proof. unfold handleWorkerMessage. repeat break_match; reflexivity. Qed.

Lemma pending_handle (msg : Js.message) (st : state) (k : Z) :
  pendingExecutions st !! k = None ->
  pendingExecutions (handleWorkerMessage msg st) !! k = None.
Proof.
  intros H. unfold handleWorkerMessage.
  repeat break_match; simpl; try assumption;
    (destruct (decide (keyOf (Js.or (Js.field msg "id") (Js.field msg "runId")) = k)) as [->|Hne];
     [apply lookup_delete_eq | rewrite lookup_delete_ne by assumption; assumption]).
Qed.

(** A message without a truthy identifier, or whose identifier is not
    pending, leaves the whole state as it is. *)
Lemma handle_ignored (msg : Js.message) (st : state) :
  Js.truthy (Js.or (Js.field msg "id") (Js.field msg "runId")) = false
  \/ pendingOf (Js.or (Js.field msg "id") (Js.field msg "runId")) st = None ->
  handleWorkerMessage msg st = st.
Proof.
  intros [H|H]; unfold handleWorkerMessage; rewrite H; simpl; [reflexivity |].
  now destruct (Js.truthy _).
Qed.

Lemma visible_onmessage_ignored (msg : Js.message) (st : state) :
  Js.truthy (Js.or (Js.field msg "id") (Js.field msg "runId")) = false
  \/ pendingOf (Js.or (Js.field msg "id") (Js.field msg "runId")) st = None ->
  visible (onmessage msg st) = visible st.
Proof.
  intros H. unfold onmessage. break_match; [reflexivity |].
  now rewrite handle_ignored.
Qed.

(** Stopping touches the timers only. *)
Lemma clearAll_timers (st : state) :
  clearAll st =
  setTimers (fold_right (fun entry t => delete (snd entry) t) (timers st)
                        (map_to_list (pendingExecutions st))) st.
Proof.
  unfold clearAll. induction (map_to_list (pendingExecutions st)) as [|e l IH]; simpl.
  - now destruct st.
  - rewrite IH. reflexivity.
Qed.

Lemma fold_delete_None (l : list (Z * nat)) (t : gmap nat (Z * Z)) (h : nat) :
  h ∈ map snd l \/ t !! h = None ->
  fold_right (fun entry t => delete (snd entry) t) t l !! h = None.
Proof.
  induction l as [|e l IH]; simpl; intros [H|H].
  - now apply elem_of_nil in H.
  - exact H.
  - destruct (decide (snd e = h)) as [->|Hne]; [apply lookup_delete_eq |].
    rewrite lookup_delete_ne by assumption. apply IH.
    apply elem_of_cons in H as [H|H]; [congruence | now left].
  - destruct (decide (snd e = h)) as [->|Hne]; [apply lookup_delete_eq |].
    rewrite lookup_delete_ne by assumption. apply IH. now right.
Qed.

Lemma runIdRef_grows3 code ms (st : state) (ev : event) :
  (runIdRef st <= runIdRef (step code ms st ev))%Z.
Proof.
  destruct ev; simpl; try lia.
  - unfold runCode_resume, runCode_run, runCode_catch.
    repeat break_match; simpl; lia.
  - rewrite clearAll_timers. simpl. lia.
  - unfold timerFired. repeat break_match; simpl; lia.
  - unfold onmessage. break_match; simpl; [lia |]. rewrite runIdRef_handle. lia.
Qed.

Lemma pending_step code ms (st : state) (ev : event) (k : Z) :
  pendingExecutions st !! k = None -> (k <= runIdRef st)%Z ->
  pendingExecutions (step code ms st ev) !! k = None.
Proof.
  intros H Hk. destruct ev; simpl; try assumption.
  - unfold runCode_resume, runCode_run, runCode_catch.
    repeat break_match; simpl; try assumption.
    rewrite lookup_insert_ne by lia. assumption.
  - apply lookup_empty.
  - unfold timerFired. repeat break_match; simpl; try assumption.
    match goal with |- delete ?z _ !! _ = _ =>
      destruct (decide (z = k)) as [->|Hne];
        [apply lookup_delete_eq | rewrite lookup_delete_ne by assumption; assumption]
    end.
  - unfold onmessage. break_match; simpl; [assumption |]. now apply pending_handle.
Qed.

Lemma pending_over_step code ms (st : state) (ev : event) (N : Z) :
  over st N -> over (step code ms st ev) N.
Proof.
  intros [H Hk]. split.
  - now apply pending_step.
  - pose proof (runIdRef_grows3 code ms st ev). lia.
Qed.

Lemma pending_over_steps code ms (evs : list event) : forall (st : state) (N : Z),
  over st N -> over (steps code ms st evs) N.
Proof.
  unfold steps. induction evs as [|ev evs IH]; intros st N H; simpl; [exact H |].
  apply IH. now apply pending_over_step.
Qed.

Lemma over_ignored (st : state) (N : Z) (msg : Js.message) :
  over st N ->
  Js.or (Js.field msg "id") (Js.field msg "runId") = Js.VNum N ->
  handleWorkerMessage msg st = st /\ visible (onmessage msg st) = visible st.
Proof.
  intros [H _] E.
  assert (Hp : pendingOf (Js.or (Js.field msg "id") (Js.field msg "runId")) st = None)
    by (rewrite E; exact H).
  split; [apply handle_ignored | apply visible_onmessage_ignored]; now right.
Qed.

Lemma wf3_step code ms (st : state) (ev : event) : wf st -> wf (step code ms st ev).
Proof.
  intros Hwf k h Hk.
  destruct (pendingExecutions st !! k) as [h0|] eqn:E.
  - pose proof (Hwf _ _ E). pose proof (runIdRef_grows3 code ms st ev). lia.
  - destruct (Z_le_gt_dec k (runIdRef st)) as [Hle|Hgt].
    + rewrite (pending_step code ms st ev k E Hle) in Hk. discriminate.
    + (* only a new run adds an entry, under its fresh identifier *)
      destruct ev; simpl in Hk |- *; try congruence.
      * revert Hk. unfold runCode_resume, runCode_run, runCode_catch.
        repeat break_match; simpl; try congruence.
        destruct (decide ((runIdRef st + 1)%Z = k)) as [<-|Hne]; [lia |].
        rewrite lookup_insert_ne by assumption. congruence.
      * rewrite lookup_empty in Hk. discriminate.
      * revert Hk. unfold timerFired. repeat break_match; simpl; try congruence.
        intros Hk. apply lookup_delete_Some in Hk as [_ Hk]. congruence.
      * revert Hk. unfold onmessage. break_match; simpl; [congruence |].
        intros Hk. rewrite pending_handle in Hk by assumption. discriminate.
Qed.

Lemma wf3_reachable code ms (st : state) : reachable code ms st -> wf st.
Proof.
  intros [evs ->]. unfold steps.
  assert (G : forall st0, wf st0 -> wf (fold_left (step code ms) evs st0)).
  { induction evs as [|ev evs IH]; intros st0 H0; simpl; [exact H0 |].
    apply IH. now apply wf3_step. }
  apply G. intros k h Hk. simpl in Hk. rewrite lookup_empty in Hk. discriminate.
Qed.

End V3Facts.

(** ** Second implementation: one promise per run *)

Module V2Facts.
Import V2.

Ltac open_handlers :=
  unfold step, onmessage, onerror, timerFired, resolve, reject, runCode, runWithWorker,
    stopExecution, resetCode, clearOutput, cleanup, runCode_then, runCode_catch, updRun.

Lemma keeps_marks :
  keeps markFinished /\ keeps markSettled /\ keeps markTerminated /\ keeps disarm.
Proof. repeat split; intros r H; exact H || reflexivity. Qed.

Lemma settledIn_alter (m : gmap Z run_state) (f : run_state -> run_state) (i id : Z) :
  keeps f -> settledIn m id -> settledIn (alter f i m) id.
Proof.
  intros Hf (r & Hr & Hs). unfold settledIn. rewrite lookup_alter.
  case_decide as E.
  - subst i. rewrite Hr. simpl. exists (f r). split; [reflexivity | now apply Hf].
  - exists r. auto.
Qed.

Lemma settledIn_insert (m : gmap Z run_state) (v : run_state) (k id : Z) :
  k <> id -> settledIn m id -> settledIn (<[k := v]> m) id.
Proof.
  intros Hne (r & Hr & Hs). exists r. rewrite lookup_insert_ne; auto.
Qed.

Lemma settledIn_isSettled (st : state) (id : Z) :
  settledIn (runs st) id -> isSettled id st = true.
Proof. intros (r & Hr & Hs). unfold isSettled. now rewrite Hr. Qed.

Ltac keep_settled :=
  repeat first
    [ assumption
    | apply settledIn_alter;
      [ first [ apply keeps_marks | apply (proj1 (proj2 keeps_marks))
              | apply (proj1 (proj2 (proj2 keeps_marks)))
              | apply (proj2 (proj2 (proj2 keeps_marks))) ] | ]
    | apply settledIn_insert; [lia | ] ].

Lemma runIdRef_grows2 code ms (st : state) (ev : event) :
  (runIdRef st <= runIdRef (step code ms st ev))%Z.
Proof. destruct ev; open_handlers; repeat break_match; simpl; lia. Qed.

Lemma settledIn_step code ms (st : state) (ev : event) (id : Z) :
  settledIn (runs st) id -> (id <= runIdRef st)%Z ->
  settledIn (runs (step code ms st ev)) id.
Proof.
  intros H Hle. destruct ev; open_handlers; repeat break_match; simpl; keep_settled.
Qed.

Lemma promise_over_step code ms (st : state) (ev : event) (id : Z) :
  over st id -> over (step code ms st ev) id.
Proof.
  intros [H Hle]. split.
  - now apply settledIn_step.
  - pose proof (runIdRef_grows2 code ms st ev). lia.
Qed.

Lemma promise_over_steps code ms (evs : list event) : forall (st : state) (id : Z),
  over st id -> over (steps code ms st evs) id.
Proof.
  unfold steps. induction evs as [|ev evs IH]; intros st id H; simpl; [exact H |].
  apply IH. now apply promise_over_step.
Qed.

(** Settling a settled promise again does nothing. *)
Lemma resolve_over (st : state) (id : Z) (x : string) :
  settledIn (runs st) id -> resolve id x st = st.
Proof. intros H. unfold resolve. now rewrite settledIn_isSettled. Qed.

Lemma reject_over (st : state) (id : Z) (m : string) :
  settledIn (runs st) id -> reject id m st = st.
Proof. intros H. unfold reject. now rewrite settledIn_isSettled. Qed.

Lemma settledIn_finish_cleanup (st : state) (id : Z) :
  settledIn (runs st) id ->
  settledIn (runs (cleanup id (updRun id markFinished st))) id
  /\ visible (cleanup id (updRun id markFinished st)) = visible st.
Proof.
  intros H. unfold cleanup, updRun. repeat break_match; simpl; split;
    try reflexivity; keep_settled.
Qed.

(** Once the promise of run [id] has settled, nothing that run's worker
    or timer does shows on screen. *)
Lemma over_onmessage (st : state) (id : Z) (msg : Js.message) :
  over st id -> visible (onmessage id msg st) = visible st.
Proof.
  intros [H _]. destruct (settledIn_finish_cleanup st id H) as [H1 H2].
  unfold onmessage. repeat break_match; try reflexivity;
    rewrite ?resolve_over, ?reject_over; assumption.
Qed.

Lemma over_onerror (st : state) (id : Z) (m : string) :
  over st id -> visible (onerror id m st) = visible st.
Proof.
  intros [H _]. destruct (settledIn_finish_cleanup st id H) as [H1 H2].
  unfold onerror. rewrite reject_over; assumption.
Qed.

Lemma over_timerFired (st : state) (id : Z) :
  over st id -> visible (timerFired id st) = visible st.
Proof.
  intros [H _]. unfold timerFired. repeat break_match; try reflexivity.
  assert (H' : settledIn (runs (updRun id disarm st)) id)
    by (unfold updRun; simpl; keep_settled).
  destruct (settledIn_finish_cleanup _ id H') as [H1 H2].
  rewrite reject_over; [| exact H1]. rewrite H2. reflexivity.
Qed.

(** A message bearing another run's identifier is dropped by the
    handler, whatever its type. *)
Lemma onmessage_mismatch (st : state) (id : Z) (msg : Js.message) :
  Js.truthy (Js.field msg "id") = true -> differs (Js.field msg "id") id = true ->
  onmessage id msg st = st.
Proof.
  intros H1 H2. unfold onmessage. rewrite H1, H2. simpl.
  destruct (isDebug msg); reflexivity.
Qed.

Lemma lookup_alter_inv (m : gmap Z run_state) (f : run_state -> run_state) (i j : Z)
      (r' : run_state) :
  alter f i m !! j = Some r' ->
  exists r, m !! j = Some r /\ ((i <> j /\ r' = r) \/ (i = j /\ r' = f r)).
Proof.
  rewrite lookup_alter. case_decide as E.
  - subst j. destruct (m !! i) as [r|]; simpl; [| discriminate].
    intros [= <-]. exists r. auto.
  - intros H. exists r'. auto.
Qed.

Ltac inv_runs H :=
  repeat match type of H with
         | alter _ _ _ !! _ = Some _ =>
             let r0 := fresh "r" in
             let Hne := fresh "Hne" in
             let Heq := fresh "Heq" in
             apply lookup_alter_inv in H as (r0 & H & [[Hne ->]|[Heq ->]]);
             [| try subst ]
         end.

Lemma wf2_step code ms (st : state) (ev : event) : wf st -> wf (step code ms st ev).
Proof.
  intros Hwf id r. unfold wf in Hwf.
  pose proof (runIdRef_grows2 code ms st ev) as Hmono. revert Hmono.
  destruct ev; open_handlers; repeat break_match; simpl; intros Hmono Hr;
    try (destruct (Hwf _ _ Hr) as [H1 H2]; split; [lia | assumption]);
    try (inv_runs Hr; try congruence; destruct (Hwf _ _ Hr) as [H1 H2];
         (split; [lia | simpl; auto])).
  destruct (decide ((runIdRef st + 1)%Z = id)) as [<-|Hne].
  - rewrite lookup_insert_eq in Hr. injection Hr as <-. split; [lia | discriminate].
  - rewrite lookup_insert_ne in Hr by assumption.
    destruct (Hwf _ _ Hr) as [H1 H2]. split; [lia | assumption].
Qed.

Lemma wf2_reachable code ms (st : state) : reachable code ms st -> wf st.
Proof.
  intros [evs ->]. unfold steps.
  assert (G : forall st0, wf st0 -> wf (fold_left (step code ms) evs st0)).
  { induction evs as [|ev evs IH]; intros st0 H0; simpl; [exact H0 |].
    apply IH. now apply wf2_step. }
  apply G. intros k h Hk. simpl in Hk. rewrite lookup_empty in Hk. discriminate.
Qed.

End V2Facts.

(** ** The properties of the specification *)

(** C1, as the code has it.  In V3 a message is matched against the
    pending executions: without a truthy identifier, or with one that is
    not pending, it leaves the state untouched; and once run [N] is over
    (settled or stopped), a message carrying [N] never changes what is on
    screen, whatever happened in between.  In V2 the handler of a run drops
    every message bearing another identifier, and once the promise of run
    [N] has settled a message to its handler changes nothing on screen. *)
Theorem C1_stale_or_unknown_identifier_ignored :
  (forall (st : V3.state) (msg : Js.message),
      Js.truthy (Js.or (Js.field msg "id") (Js.field msg "runId")) = false
      \/ V3.pendingOf (Js.or (Js.field msg "id") (Js.field msg "runId")) st = None ->
      V3.handleWorkerMessage msg st = st)
  /\ (forall code ms (st : V3.state) (N : Z) (evs : list V3.event) (msg : Js.message),
         V3.over st N ->
         Js.or (Js.field msg "id") (Js.field msg "runId") = Js.VNum N ->
         V3.visible (V3.step code ms (V3.steps code ms st evs) (V3.WorkerMessage msg))
         = V3.visible (V3.steps code ms st evs))
  /\ (forall (st : V2.state) (id : Z) (msg : Js.message),
         Js.truthy (Js.field msg "id") = true ->
         V2.differs (Js.field msg "id") id = true ->
         V2.onmessage id msg st = st)
  /\ (forall code ms (st : V2.state) (N : Z) (evs : list V2.event) (msg : Js.message),
         V2.over st N ->
         V2.visible (V2.step code ms (V2.steps code ms st evs) (V2.WorkerMessage N msg))
         = V2.visible (V2.steps code ms st evs)).
Proof.
  split; [| split; [| split]].
  - intros st msg H. now apply V3Facts.handle_ignored.
  - intros code ms st N evs msg Hover E. simpl.
    apply (V3Facts.over_ignored _ N); [| exact E].
    now apply V3Facts.pending_over_steps.
  - intros st id msg H1 H2. now apply V2Facts.onmessage_mismatch.
  - intros code ms st N evs msg Hover. simpl.
    apply V2Facts.over_onmessage. now apply V2Facts.promise_over_steps.
Qed.

(** C1 at work: the first run timed out and a second one is in flight;
    the late answer to the first run, and an answer without identifier,
    change nothing. *)
Lemma C1_stale_or_unknown_identifier_ignored_witness :
  V3.handleWorkerMessage [("type", Js.VStr "result"); ("output", Js.VStr "x")]
    Scenario.timedOut3 = Scenario.timedOut3
  /\ V3.visible (V3.step Scenario.code 30000%Z
                   (V3.steps Scenario.code 30000%Z Scenario.timedOut3 Scenario.runAgain)
                   (V3.WorkerMessage (Scenario.reply 1)))
     = V3.visible (V3.steps Scenario.code 30000%Z Scenario.timedOut3 Scenario.runAgain)
  /\ V2.onmessage 2 (Scenario.reply2 1) Scenario.timedOut2 = Scenario.timedOut2
  /\ V2.visible (V2.step Scenario.code 8000%Z
                   (V2.steps Scenario.code 8000%Z Scenario.timedOut2 Scenario.runAgain2)
                   (V2.WorkerMessage 1 (Scenario.reply2 1)))
     = V2.visible (V2.steps Scenario.code 8000%Z Scenario.timedOut2 Scenario.runAgain2).
Proof.
  destruct C1_stale_or_unknown_identifier_ignored as (A & B & C & D).
  split; [| split; [| split]].
  - apply A. left. reflexivity.
  - apply B with (N := 1%Z).
    + split; [vm_compute; reflexivity | vm_compute; discriminate].
    + reflexivity.
  - apply C; reflexivity.
  - apply D. split; [| vm_compute; discriminate].
    eexists. split; [vm_compute; reflexivity | reflexivity].
Defined.

(** C1, as the specification words it, fails: Run, Reset while run 1 is pending,
    Run again.  Every step is one the page allows.  Run 2 has started, the
    status is [running] and the output empty; the worker's answer to
    request 1 then arrives, is accepted because run 1 is still pending,
    and puts the output of run 1 on screen with the status [idle]. *)
Lemma C1_late_message_counterexample :
  let st := V3.steps Scenario.code 30000%Z (V3.initial Scenario.code) Scenario.runResetRun in
  V3.feasible Scenario.code 30000%Z (V3.initial Scenario.code)
    (Scenario.runResetRun ++ [V3.WorkerMessage (Scenario.reply 1)])%list = true
  /\ V3.posted st = [Scenario.request 1; Scenario.request 2]
  /\ snd (V3.worker_onmessage Scenario.allLoad (Some Scenario.echo) (Scenario.request 1))
     = [Scenario.reply 1]
  /\ Js.field (Scenario.reply 1) "id" = Js.VNum 1
  /\ V3.runIdRef st = 2%Z
  /\ V3.visible st = ("", Js.VNull, Status.running)
  /\ V3.visible (V3.step Scenario.code 30000%Z st (V3.WorkerMessage (Scenario.reply 1)))
     = ("echo 1;", Js.VNull, Status.idle).
Proof. vm_compute. repeat split. Qed.

(** *** Timers *)

Section TimerFacts.

Lemma V2_timeout_message_status (t : Z) :
  Str.isEmpty (V2.timeoutMessage t) = false
  /\ Str.includes "timeout" (Str.toLowerCase (V2.timeoutMessage t)) = true.
Proof. split; reflexivity. Qed.

Lemma V2_runs_cleanup (id : Z) (st : V2.state) :
  V2.runs (V2.cleanup id st) = alter V2.markTerminated id (V2.runs st).
Proof. unfold V2.cleanup. repeat break_match; reflexivity. Qed.

(** The timer of an unfinished run rejects its promise, and [runCode]
    resumes in its [catch] branch. *)
Lemma V2_timerFired_unsettled (st : V2.state) (id : Z) (r : V2.run_state) :
  V2.runs st !! id = Some r ->
  V2.timerArmed r = true -> V2.finished r = false -> V2.settled r = false ->
  V2.timerFired id st =
  V2.runCode_catch (V2.timeoutMessage (V2.clientTimeout r))
    (V2.updRun id V2.markSettled
       (V2.cleanup id (V2.updRun id V2.markFinished (V2.updRun id V2.disarm st)))).
Proof.
  intros Hr Ha Hf Hs. unfold V2.timerFired. rewrite Hr, Ha, Hf.
  unfold V2.reject, V2.isSettled. rewrite V2_runs_cleanup. simpl.
  rewrite !lookup_alter_eq, Hr. simpl. rewrite Hs. reflexivity.
Qed.

Lemma V2_timerFired_visible (st : V2.state) (id : Z) (r : V2.run_state) :
  V2.runs st !! id = Some r ->
  V2.timerArmed r = true -> V2.finished r = false -> V2.settled r = false ->
  V2.visible (V2.timerFired id st) =
  ("[Error] " ++ V2.timeoutMessage (V2.clientTimeout r),
   Js.VStr (V2.timeoutMessage (V2.clientTimeout r)), Status.timeout).
Proof.
  intros Hr Ha Hf Hs. rewrite (V2_timerFired_unsettled st id r) by assumption.
  reflexivity.
Qed.

Lemma V2_timerFired_over (st : V2.state) (id : Z) (r : V2.run_state) :
  V2.runs st !! id = Some r -> (id <= V2.runIdRef st)%Z ->
  V2.timerArmed r = true -> V2.finished r = false -> V2.settled r = false ->
  V2.over (V2.timerFired id st) id.
Proof.
  intros Hr Hle Ha Hf Hs. rewrite (V2_timerFired_unsettled st id r) by assumption.
  split.
  - unfold V2.settledIn, V2.runCode_catch. simpl. rewrite V2_runs_cleanup. simpl.
    rewrite !lookup_alter_eq, Hr. simpl. eexists. split; reflexivity.
  - unfold V2.runCode_catch, V2.cleanup. simpl. repeat break_match; simpl; exact Hle.
Qed.

(** The timer of a pending run settles it as a time-out. *)
Lemma V3_timerFired_pending (st : V3.state) (h : nat) (runId t : Z) (h' : nat) :
  V3.timers st !! h = Some (runId, t) ->
  V3.pendingExecutions st !! runId = Some h' ->
  V3.visible (V3.timerFired h st) =
  ("[Error] Execution timeout",
   Js.VStr ("Execution timeout after " ++ Str.ofNumber t ++ " ms"), Status.timeout)
  /\ V3.pendingExecutions (V3.timerFired h st) !! runId = None
  /\ V3.runIdRef (V3.timerFired h st) = V3.runIdRef st.
Proof.
  intros Ht Hp. unfold V3.timerFired. rewrite Ht. simpl. rewrite Hp. simpl.
  repeat split. apply lookup_delete_eq.
Qed.

End TimerFacts.

(** C2.  In V3, when the timer of a run that is still pending fires, the
    status becomes [timeout], the time-out message is exposed, and from
    then on a message carrying that run's identifier never changes what is
    on screen.  In V2, when the timer of an unfinished run fires, the
    promise is rejected with the client-side time-out message, which
    [runCode] maps to the status [timeout], and from then on nothing
    delivered to that run's handler changes what is on screen. *)
Theorem C2_timeout_then_late_result_discarded :
  (forall code ms (st : V3.state) (h h' : nat) (runId t : Z),
      V3.reachable code ms st ->
      V3.timers st !! h = Some (runId, t) ->
      V3.pendingExecutions st !! runId = Some h' ->
      let st' := V3.timerFired h st in
      V3.status st' = Status.timeout
      /\ V3.lastError st' = Js.VStr ("Execution timeout after " ++ Str.ofNumber t ++ " ms")
      /\ V3.output st' = "[Error] Execution timeout"
      /\ forall (evs : list V3.event) (msg : Js.message),
           Js.or (Js.field msg "id") (Js.field msg "runId") = Js.VNum runId ->
           V3.visible (V3.step code ms (V3.steps code ms st' evs) (V3.WorkerMessage msg))
           = V3.visible (V3.steps code ms st' evs))
  /\ (forall code ms (st : V2.state) (id : Z) (r : V2.run_state),
         V2.reachable code ms st ->
         V2.runs st !! id = Some r ->
         V2.timerArmed r = true -> V2.finished r = false ->
         let st' := V2.timerFired id st in
         V2.status st' = Status.timeout
         /\ V2.lastError st' = Js.VStr (V2.timeoutMessage (V2.clientTimeout r))
         /\ V2.output st' = "[Error] " ++ V2.timeoutMessage (V2.clientTimeout r)
         /\ forall (evs : list V2.event) (msg : Js.message),
              V2.visible (V2.step code ms (V2.steps code ms st' evs) (V2.WorkerMessage id msg))
              = V2.visible (V2.steps code ms st' evs)).
Proof.
  split.
  - intros code ms st h h' runId t Hreach Ht Hp st'.
    destruct (V3_timerFired_pending st h runId t h' Ht Hp) as (Hv & Hnone & Hid).
    fold st' in Hv, Hnone, Hid. unfold V3.visible in Hv.
    injection Hv as Ho He Hs. repeat split; try assumption.
    intros evs msg E. simpl.
    apply (V3Facts.over_ignored _ runId); [| exact E].
    apply V3Facts.pending_over_steps. split; [exact Hnone |].
    rewrite Hid. exact (V3Facts.wf3_reachable code ms st Hreach runId h' Hp).
  - intros code ms st id r Hreach Hr Ha Hf st'.
    destruct (V2Facts.wf2_reachable code ms st Hreach id r Hr) as [Hle Hsf].
    assert (Hs : V2.settled r = false).
    { destruct (V2.settled r); [| reflexivity]. rewrite Hsf in Hf by reflexivity. discriminate. }
    pose proof (V2_timerFired_visible st id r Hr Ha Hf Hs) as Hv.
    fold st' in Hv. unfold V2.visible in Hv. injection Hv as Ho He Hst.
    repeat split; try assumption.
    intros evs msg. simpl. apply V2Facts.over_onmessage. apply V2Facts.promise_over_steps.
    now apply (V2_timerFired_over st id r).
Qed.

(** C2 at work: one run in flight in each implementation, its timer
    fires, another run starts, and the answer to the first run arrives. *)
Lemma C2_timeout_then_late_result_discarded_witness :
  (let st' := V3.timerFired 0 (V3.steps Scenario.code 30000%Z (V3.initial Scenario.code)
                                 Scenario.oneRun) in
   V3.status st' = Status.timeout
   /\ V3.visible (V3.step Scenario.code 30000%Z
                    (V3.steps Scenario.code 30000%Z st' Scenario.runAgain)
                    (V3.WorkerMessage (Scenario.reply 1)))
      = V3.visible (V3.steps Scenario.code 30000%Z st' Scenario.runAgain))
  /\ (let st' := V2.timerFired 1 (V2.steps Scenario.code 8000%Z (V2.initial Scenario.code)
                                    [V2.RunClicked]) in
      V2.status st' = Status.timeout
      /\ V2.visible (V2.step Scenario.code 8000%Z
                       (V2.steps Scenario.code 8000%Z st' Scenario.runAgain2)
                       (V2.WorkerMessage 1 (Scenario.reply2 1)))
         = V2.visible (V2.steps Scenario.code 8000%Z st' Scenario.runAgain2)).
Proof.
  destruct C2_timeout_then_late_result_discarded as [A B].
  split.
  - destruct (A Scenario.code 30000%Z
                (V3.steps Scenario.code 30000%Z (V3.initial Scenario.code) Scenario.oneRun)
                0%nat 0%nat 1%Z 30000%Z) as (H1 & _ & _ & H4).
    + eexists. reflexivity.
    + vm_compute. reflexivity.
    + vm_compute. reflexivity.
    + split; [exact H1 |]. apply H4. reflexivity.
  - destruct (B Scenario.code 8000%Z
                (V2.steps Scenario.code 8000%Z (V2.initial Scenario.code) [V2.RunClicked])
                1%Z
                {| V2.finished := false; V2.settled := false; V2.terminated := false;
                   V2.timerArmed := true; V2.clientTimeout := 8000%Z |})
      as (H1 & _ & _ & H4).
    + eexists. reflexivity.
    + vm_compute. reflexivity.
    + reflexivity.
    + reflexivity.
    + split; [exact H1 |]. apply H4.
Defined.

(** *** Stopping *)

Section StopFacts.

(** The third implementation cancels on Stop: every pending timer is
    cleared, nothing stays pending, the status is [stopped], and every
    run that was pending is over, so its late result is ignored. *)
Lemma V3_stop_cancels (code : string) (ms : Z) (st : V3.state) (k : Z) (h : nat) :
  V3.reachable code ms st ->
  V3.pendingExecutions st !! k = Some h ->
  let st' := V3.stopExecution st in
  V3.timers st' !! h = None
  /\ V3.pendingExecutions st' = ∅
  /\ V3.status st' = Status.stopped
  /\ V3.output st' = "[Execution stopped]"
  /\ V3.over st' k.
Proof.
  intros Hreach Hk st'. subst st'. unfold V3.stopExecution.
  rewrite V3Facts.clearAll_timers. simpl. unfold V3.over. simpl.
  split_and!; try reflexivity.
  - apply V3Facts.fold_delete_None. left.
    apply list_elem_of_In. apply (in_map snd _ (k, h)).
    apply list_elem_of_In. now apply elem_of_map_to_list.
  - exact (V3Facts.wf3_reachable code ms st Hreach k h Hk).
Qed.

(** The second implementation's Stop marks the worker terminated and
    nothing else: the run's [finished] flag, its promise and its timer
    stay as they were. *)
Lemma V2_stop_keeps_timer (st : V2.state) (w : Z) (r : V2.run_state) :
  V2.workerRef st = Some w -> V2.runs st !! w = Some r ->
  V2.runs (V2.stopExecution st) !! w = Some (V2.markTerminated r)
  /\ V2.status (V2.stopExecution st) = Status.stopped.
Proof.
  intros Hw Hr. unfold V2.stopExecution. rewrite Hw. simpl.
  rewrite lookup_alter_eq, Hr. split; reflexivity.
Qed.

End StopFacts.

(** C3 on the second implementation: Run, Stop, then the run's timer
    fires.  Each step is one the page allows.  Stop shows the run as
    [stopped]; the timer, still armed, then rejects the run's promise and
    the same run is shown as timed out. *)
Theorem C3_stopped_run_settles_again :
  let st1 := V2.steps Scenario.code 8000%Z (V2.initial Scenario.code) [V2.RunClicked] in
  let st2 := V2.step Scenario.code 8000%Z st1 V2.StopClicked in
  let st3 := V2.step Scenario.code 8000%Z st2 (V2.TimerFired 1) in
  V2.feasible Scenario.code 8000%Z (V2.initial Scenario.code)
    [V2.RunClicked; V2.StopClicked; V2.TimerFired 1] = true
  /\ V2.visible st1 = ("", Js.VNull, Status.running)
  /\ V2.visible st2 = ("[Execution stopped]", Js.VNull, Status.stopped)
  /\ V2.visible st3 = ("[Error] Client-side timeout after 8000 ms",
                       Js.VStr "Client-side timeout after 8000 ms", Status.timeout)
  /\ V2.runIdRef st3 = 1%Z.
Proof. vm_compute. repeat split. Qed.

(** On the second implementation, after Run and Stop the status is
    [stopped], but the run's record still has its timer armed and its
    [finished] flag unset, so that the timer can fire; when it does the
    status leaves [stopped] for [timeout]. *)
Lemma V2_stop_leaves_timer_armed :
  let st := V2.steps Scenario.code 8000%Z (V2.initial Scenario.code) Scenario.runStop in
  V2.feasible Scenario.code 8000%Z (V2.initial Scenario.code) Scenario.runStop = true
  /\ V2.status st = Status.stopped
  /\ V2.workerRef st = None
  /\ V2.runs st !! 1%Z = Some {| V2.finished := false; V2.settled := false;
                                 V2.terminated := true; V2.timerArmed := true;
                                 V2.clientTimeout := 8000%Z |}
  /\ V2.enabled st (V2.TimerFired 1) = true
  /\ V2.status (V2.step Scenario.code 8000%Z st (V2.TimerFired 1)) = Status.timeout
  /\ V2.output (V2.step Scenario.code 8000%Z st (V2.TimerFired 1))
     = "[Error] Client-side timeout after 8000 ms".
Proof. vm_compute. repeat split. Qed.

(** *** Loading *)

Section LoadFacts.

Lemma V2_tryAll_never (imp : string -> V2.import_result) (urls : list string) :
  V2.neverLoads imp -> fst (V2.tryAll imp urls) = None.
Proof.
  intros H. induction urls as [|u urls IH]; simpl; [reflexivity |].
  specialize (H u). destruct (imp u); try contradiction;
    destruct (V2.tryAll imp urls); simpl in *; exact IH.
Qed.

(** When no source gives a runtime, the worker answers a run request
    with an error message that carries the request's identifier. *)
Lemma V2_worker_load_failure (imp : string -> V2.import_result) (url : string)
      (id code ms : Js.value) :
  V2.neverLoads imp ->
  exists log,
    V2.worker_onmessage imp url None
      [("type", Js.VStr "run"); ("id", id); ("code", code); ("timeoutMs", ms)]
    = (None, (log ++ [V2.errorMessage id (V2.loadError url)])%list).
Proof.
  intros H. unfold V2.worker_onmessage, V2.createRuntime.
  change (Js.isString "run"
            (Js.field [("type", Js.VStr "run"); ("id", id); ("code", code);
                       ("timeoutMs", ms)] "type")) with true.
  change (Js.field [("type", Js.VStr "run"); ("id", id); ("code", code);
                    ("timeoutMs", ms)] "id") with id.
  pose proof (V2_tryAll_never imp (V2.TRIES url) H) as E.
  destruct (V2.tryAll imp (V2.TRIES url)) as [o log]. simpl in E. subst o.
  exists (log ++ [V2.dbg ("An error occurred: " ++ V2.loadError url)])%list.
  unfold V2.errorReply. rewrite <- app_assoc. reflexivity.
Qed.

(** An error message for an unsettled run rejects its promise. *)
Lemma V2_onmessage_error_unsettled (st : V2.state) (id : Z) (r : V2.run_state) (m : string) :
  V2.runs st !! id = Some r -> V2.settled r = false -> Str.isEmpty m = false ->
  V2.onmessage id (V2.errorMessage (Js.VNum id) m) st =
  V2.runCode_catch m
    (V2.updRun id V2.markSettled (V2.cleanup id (V2.updRun id V2.markFinished st))).
Proof.
  intros Hr Hs Hm. unfold V2.onmessage, V2.errorMessage.
  change (Js.field [("type", Js.VStr "error"); ("id", Js.VNum id); ("error", Js.VStr m)] "id")
    with (Js.VNum id).
  change (Js.field [("type", Js.VStr "error"); ("id", Js.VNum id); ("error", Js.VStr m)] "type")
    with (Js.VStr "error").
  change (Js.field [("type", Js.VStr "error"); ("id", Js.VNum id); ("error", Js.VStr m)] "error")
    with (Js.VStr m).
  unfold V2.isDebug.
  change (Js.field [("type", Js.VStr "error"); ("id", Js.VNum id); ("error", Js.VStr m)] "type")
    with (Js.VStr "error").
  unfold V2.differs. rewrite Z.eqb_refl, andb_false_r.
  change (Js.isString "debug" (Js.VStr "error")) with false.
  change (Js.isString "result" (Js.VStr "error")) with false.
  change (Js.isString "error" (Js.VStr "error")) with true.
  cbv iota.
  unfold Js.or, Js.truthy. rewrite Hm. simpl negb. cbv iota.
  unfold V2.reject, V2.isSettled. rewrite V2_runs_cleanup. simpl.
  rewrite !lookup_alter_eq, Hr. simpl. rewrite Hs. reflexivity.
Qed.

(** When no source gives a ready instance, the worker answers the ping
    with an error message that carries no identifier, and the widget's
    handler leaves the state as it is. *)
Lemma V3_load_failure_reply_dropped (imp : string -> V3.attempt)
      (phpInstance : option V3.engine) (st : V3.state) :
  V3.neverLoads imp ->
  snd (V3.worker_onmessage imp phpInstance [("type", Js.VStr "ping")]) = [V3.initFailed]
  /\ V3.onmessage V3.initFailed st = st.
Proof.
  intros H. split; [| reflexivity].
  unfold V3.worker_onmessage, V3.loadPHPWithFallback.
  change (Js.isString "ping" (Js.field [("type", Js.VStr "ping")] "type")) with true.
  cbv iota.
  assert (G : forall cdns inst, exists inst',
               V3.tryAll imp cdns inst = (inst', inr V3.allFailed)).
  { induction cdns as [|c cdns IH]; intros inst; simpl; [eauto |].
    specialize (H c). destruct (imp c); try contradiction; apply IH. }
  destruct (G V3.CDN_SOURCES phpInstance) as [inst' ->]. reflexivity.
Qed.

End LoadFacts.












(** C9, as the code has it.  In V2 and V3, from any state, Reset puts the
    source back to the [code] prop, the status to [idle], the output to
    empty and the last error to [null], and a second Reset changes
    nothing.  In V1, which keeps no status, Reset puts the source back to
    [code || ""], empties the output and the error, leaves [isRunning] and
    [timedOut] as they were, and a second Reset changes nothing. *)
Theorem C9_reset_idempotent :
  (forall (code : string) (st : V3.state),
      let st' := V3.resetCode code st in
      V3.src st' = code /\ V3.status st' = Status.idle /\ V3.output st' = ""
      /\ V3.lastError st' = Js.VNull /\ V3.resetCode code st' = st')
  /\ (forall (code : string) (st : V2.state),
         let st' := V2.resetCode code st in
         V2.src st' = code /\ V2.status st' = Status.idle /\ V2.output st' = ""
         /\ V2.lastError st' = Js.VNull /\ V2.resetCode code st' = st')
  /\ (forall (code : option string) (st : V1.state),
         let st' := V1.reset code st in
         V1.src st' = V1.codeOrEmpty code /\ V1.output st' = "" /\ V1.error st' = None
         /\ V1.isRunning st' = V1.isRunning st /\ V1.timedOut st' = V1.timedOut st
         /\ V1.reset code st' = st').
Proof. split_and!; intros code st; simpl; split_and!; reflexivity. Qed.

(** C9, as the specification words it, fails on the first implementation: after a
    run has timed out, Reset empties the output but the time-out notice
    stays, where the freshly mounted widget shows none. *)
Lemma C9_notice_survives_reset_counterexample :
  V1.timedOut Scenario.timedOut1 = true
  /\ V1.output (V1.reset (Some Scenario.code) Scenario.timedOut1) = ""
  /\ V1.timedOut (V1.reset (Some Scenario.code) Scenario.timedOut1) = true
  /\ V1.timedOut (V1.initial (Some Scenario.code)) = false
  /\ V1.runLabel (V1.reset (Some Scenario.code) Scenario.racing1) = "Running..."
  /\ V1.runLabel (V1.initial (Some Scenario.code)) = "Run PHP".
Proof. vm_compute. repeat split. Qed.

(** C10.  When [runCode] is invoked from a render in which [php] is
    [null], it awaits [loadRuntime] and returns: whatever the loader did
    and whatever the live state has become, the re-check reads the [php]
    of the invoking render.  It leaves [isRunning] false and the output
    empty, starts no race and so never calls the engine; after a
    successful load no error is set, and the instance is in the state for
    the next render only. *)
Theorem C10_first_run_returns_without_running
        (st : V1.state) (o : V1.load_outcome) (timeoutMs : Z) :
  V1.php st = None ->
  (exists st',
      V1.runCode_toRace st o st = V1.Returned st'
      /\ V1.isRunning st' = false
      /\ V1.output st' = ""
      /\ forall phpInstance, o = V1.Created phpInstance ->
           V1.error st' = None
           /\ (V1.isLoadingRuntime st = false -> V1.php st' = Some phpInstance))
  /\ (forall live : V1.state,
         V1.runCode_afterLoad st live = V1.Returned (V1.setIsRunning false live))
  /\ V1.races (V1.runCode timeoutMs o st) = V1.races st
  /\ V1.isRunning (V1.runCode timeoutMs o st) = false.
Proof.
  intros Hphp.
  assert (A : forall live, V1.runCode_afterLoad st live = V1.Returned (V1.setIsRunning false live)).
  { intros live. unfold V1.runCode_afterLoad. now rewrite Hphp. }
  split_and!; try exact A.
  - unfold V1.runCode_toRace. rewrite Hphp, A. eexists. split; [reflexivity |].
    unfold V1.loadRuntime, V1.loadRuntime_begin, V1.loadRuntime_end. rewrite Hphp.
    destruct (V1.isLoadingRuntime st); simpl; split_and!; try reflexivity.
    + intros phpInstance _. split; [reflexivity | discriminate].
    + destruct o; reflexivity.
    + intros phpInstance ->. split; [reflexivity | reflexivity].
  - unfold V1.runCode, V1.runCode_toRace. rewrite Hphp, A.
    unfold V1.loadRuntime, V1.loadRuntime_begin, V1.loadRuntime_end. rewrite Hphp.
    destruct (V1.isLoadingRuntime st); [reflexivity |]. destruct o; reflexivity.
  - unfold V1.runCode, V1.runCode_toRace. rewrite Hphp, A. reflexivity.
Qed.

(** C10 at work: the freshly mounted widget, a loader that succeeds. *)
Lemma C10_first_run_returns_without_running_witness :
  let st' := V1.runCode 8000%Z (V1.Created Scenario.echo1) (V1.initial (Some Scenario.code)) in
  V1.races st' = V1.races (V1.initial (Some Scenario.code))
  /\ V1.isRunning st' = false.
Proof.
  destruct (C10_first_run_returns_without_running
              (V1.initial (Some Scenario.code)) (V1.Created Scenario.echo1) 8000%Z)
    as (_ & _ & H3 & H4).
  - reflexivity.
  - split; [exact H3 | exact H4].
Defined.

(** C6 at work: the markup of the specification's example contains a tag,
    and the plain text ["5"] does not. *)
Lemma C6_classify_iff_open_or_close_tag_witness :
  Output.tagLikeOC "<h1>Hi</h1>" /\ ~ Output.tagLikeOC "5".
Proof.
  split.
  - apply (proj1 (proj1 (C6_classify_iff_open_or_close_tag "<h1>Hi</h1>"))). reflexivity.
  - apply (proj1 (proj1 (proj2 (C6_classify_iff_open_or_close_tag "5")))). reflexivity.
Defined.
